(** * The block-following scheduler of rpc-test (src/index.ts)

    A shallow embedding of [processBlock], [startScheduler] and the summary
    of [main], and the properties of the scheduler proved over it.

    [index.ts] holds two revisions of the scheduler.  The later one (lines
    235-480 of the file) is embedded at top level; the loop body of the
    earlier one (lines 74-165) lives in [Module Earlier].  The Solana
    scheduler of src/unnamed/part_000 is embedded in [Module Solana].

    What the program cannot decide is an input of the model:
    - every [await] on an RPC call is answered by a promise the environment
      supplies ([Js.Promise]: an outcome and the instant, in event-loop
      order, at which it settles);
    - every [Date.now()] is a reading the environment supplies;
    - the hooks installed on the [FetchRequest] ([preflightFunc],
      [processFunc], [retryFunc]) run when the transport decides: once per
      request sent, once per response received, once per HTTP 429 response.
      A call that times out or loses its connection yields no response, so
      [processFunc] does not run for it. *)

From Stdlib Require Import ZArith List String Ascii Bool Lia.
From Stdlib Require Import DecimalString Floats Uint63.
Import ListNotations.

Open Scope string_scope.
Open Scope list_scope.
Open Scope Z_scope.

Set Implicit Arguments.

(* ------------------------------------------------------------------ *)
(** ** The JavaScript values and promise combinators the program uses *)

Module Js.

(** An [Error] object: its [name] and [message]. *)
Record Error := mkError { name : string; message : string }.

(** [Error(msg)] *)
Definition Error_ (msg : string) : Error :=
  {| name := "Error"; message := msg |}.

(** [Error.prototype.toString] *)
Definition toString (e : Error) : string :=
  if (name e =? "")%string then message e
  else if (message e =? "")%string then name e
  else (name e ++ ": " ++ message e)%string.

(** [String.prototype.includes] *)
Fixpoint includes (s search : string) : bool :=
  if String.prefix search s then true
  else match s with
       | EmptyString => false
       | String _ rest => includes rest search
       end.

(** An integer inside a template literal. *)
Definition show (n : Z) : string := NilZero.string_of_int (Z.to_int n).

(** How a promise settles. *)
Inductive Settled (A : Type) : Type :=
| Fulfilled (value : A)
| Rejected (reason : Error).
Arguments Fulfilled {A} value.
Arguments Rejected {A} reason.

Definition isRejected {A} (s : Settled A) : bool :=
  match s with Rejected _ => true | Fulfilled _ => false end.

(** A promise as the awaiting code sees it: the instant at which it
    settles (a position in event-loop order) and its outcome. *)
Record Promise (A : Type) : Type :=
  mkPromise { settledAt : nat; outcome : Settled A }.

Definition resolveAt {A} (t : nat) (v : A) : Promise A :=
  {| settledAt := t; outcome := Fulfilled v |}.
Definition rejectAt {A} (t : nat) (e : Error) : Promise A :=
  {| settledAt := t; outcome := Rejected e |}.

(** The latest settling instant of [ps], no earlier than [t0]. *)
Fixpoint lastSettled {A} (t0 : nat) (ps : list (Promise A)) : nat :=
  match ps with
  | [] => t0
  | p :: rest => Nat.max (settledAt p) (lastSettled t0 rest)
  end.

(** The rejection that settles first; of two at the same instant, the one
    of the earlier promise. *)
Fixpoint firstRejection {A} (ps : list (Promise A)) : option (nat * Error) :=
  match ps with
  | [] => None
  | p :: rest =>
      match outcome p, firstRejection rest with
      | Fulfilled _, r => r
      | Rejected e, None => Some (settledAt p, e)
      | Rejected e, Some (t, e') =>
          if (settledAt p <=? t)%nat then Some (settledAt p, e)
          else Some (t, e')
      end
  end.

(** The values of the promises of [ps] that fulfilled, in order. *)
Fixpoint values {A} (ps : list (Promise A)) : list A :=
  match ps with
  | [] => []
  | p :: rest =>
      match outcome p with
      | Fulfilled v => v :: values rest
      | Rejected _ => values rest
      end
  end.

(** [Promise.allSettled(ps)], called at instant [t0]: fulfils once every
    promise has settled, with the outcomes in order. *)
Definition allSettled {A} (t0 : nat) (ps : list (Promise A))
  : Promise (list (Settled A)) :=
  resolveAt (lastSettled t0 ps) (map (@outcome A) ps).

(** [Promise.all(ps)], called at instant [t0]: rejects as soon as one
    promise rejects, with that reason; otherwise fulfils once all have
    fulfilled, with the values in order. *)
Definition all {A} (t0 : nat) (ps : list (Promise A)) : Promise (list A) :=
  match firstRejection ps with
  | Some (t, e) => rejectAt t e
  | None => resolveAt (lastSettled t0 ps) (values ps)
  end.

(** [p.catch(err => { console.log(...); throw err })]: the handler logs
    and rethrows, so the promise settles as [p] does. *)
Definition catchRethrow {A} (p : Promise A) : Promise A :=
  match outcome p with
  | Fulfilled v => resolveAt (settledAt p) v
  | Rejected err => rejectAt (settledAt p) err
  end.

(** A JavaScript number holding the integer [z] (exact while
    [|z| < 2^53]). *)
Definition number (z : Z) : float :=
  if z <? 0 then PrimFloat.opp (PrimFloat.of_uint63 (Uint63.of_Z (- z)))
  else PrimFloat.of_uint63 (Uint63.of_Z z).

End Js.

(* ------------------------------------------------------------------ *)
(** ** Types of index.ts *)

Module TestConfig.
Record t := {
  startTimeMs : Z;
  startBlockNumber : option Z;
  finishBlockNumber : option Z;
  targetRunningTimeMs : option Z;
  rpcUrl : string;
  batchSize : Z
}.
End TestConfig.

Module TestResult.
Record t := {
  idx : Z;
  calls : Z;
  failCalls : Z;
  retryCalls : Z;
  finishTimeMs : Z;
  startBlockNumber : Z;
  finishBlockNumber : Z;
  totalCallMs : Z;
  rpcUrl : string
}.
End TestResult.

Record Failure := { reason : string; timestamp : Z }.

(** What the program reads of the provider's answers. *)
Definition TxHash := string.
Record Block := { transactions : list TxHash }.
Record TransactionReceipt := { receiptHash : TxHash; receiptBlock : Z }.

(* ------------------------------------------------------------------ *)
(** ** processBlock (lines 273-317) *)

(** The provider as one [processBlock] invocation meets it. *)
Record BlockEnv := {
  (** [provider.getBlock(blockNumber)]: a block, [null], or a rejection *)
  getBlock : Js.Promise (option Block);
  (** [provider.getTransactionReceipt(txs[i])], by position and hash *)
  getTransactionReceipt : nat -> TxHash -> Js.Promise (option TransactionReceipt);
  (** [Date.now()] when the outcome at position [i] is recorded *)
  failureNow : nat -> Z
}.

(** Lines 286-300: one receipt request per transaction, from position [i]. *)
Fixpoint receiptPromises (provider : BlockEnv) (i : nat) (txs : list TxHash)
  : list (Js.Promise (option TransactionReceipt)) :=
  match txs with
  | [] => []
  | tx :: rest =>
      Js.catchRethrow (getTransactionReceipt provider i tx)
        :: receiptPromises provider (S i) rest
  end.

(** Lines 303-308: every rejected outcome becomes one [Failure]. *)
Fixpoint collectFails {A} (provider : BlockEnv) (i : nat)
  (receipts : list (Js.Settled A)) : list Failure :=
  match receipts with
  | [] => []
  | Js.Fulfilled _ :: rest => collectFails provider (S i) rest
  | Js.Rejected rejectReason :: rest =>
      {| reason := Js.toString rejectReason; timestamp := failureNow provider i |}
        :: collectFails provider (S i) rest
  end.

Definition processBlock (idx : Z) (cfg : TestConfig.t) (provider : BlockEnv)
  (blockNumber : Z) : Js.Promise (list Failure) :=
  let fetched := getBlock provider in
  match Js.outcome fetched with
  | Js.Rejected err => Js.rejectAt (Js.settledAt fetched) err
  | Js.Fulfilled None =>
      Js.rejectAt (Js.settledAt fetched)
        (Js.Error_ ("Can't find " ++ Js.show blockNumber ++ " block")%string)
  | Js.Fulfilled (Some block) =>
      let txs := transactions block in
      let promises := receiptPromises provider 0 txs in
      let receipts := Js.allSettled (Js.settledAt fetched) promises in
      match Js.outcome receipts with
      | Js.Fulfilled settled =>
          Js.resolveAt (Js.settledAt receipts) (collectFails provider 0 settled)
      | Js.Rejected err => Js.rejectAt (Js.settledAt receipts) err
      end
  end.

(* ------------------------------------------------------------------ *)
(** ** startScheduler (lines 319-436) *)

(** The variables of one [startScheduler] call that outlive an iteration:
    the counters the hooks and the loop update (lines 323-328) and the
    block pointer (line 361). *)
Module Scheduler.
Record t := {
  totalReqs : Z;
  totalCalls : Z;
  totalCallMs : Z;
  failCalls : Z;
  timeoutCalls : Z;
  retryCalls : Z;
  currBlockNumber : Z
}.

Definition init (startBlockNumber : Z) : t :=
  {| totalReqs := 0; totalCalls := 0; totalCallMs := 0; failCalls := 0;
     timeoutCalls := 0; retryCalls := 0; currBlockNumber := startBlockNumber |}.

Definition incrTotalReqs (s : t) : t :=
  {| totalReqs := totalReqs s + 1; totalCalls := totalCalls s;
     totalCallMs := totalCallMs s; failCalls := failCalls s;
     timeoutCalls := timeoutCalls s; retryCalls := retryCalls s;
     currBlockNumber := currBlockNumber s |}.

Definition incrTotalCalls (s : t) : t :=
  {| totalReqs := totalReqs s; totalCalls := totalCalls s + 1;
     totalCallMs := totalCallMs s; failCalls := failCalls s;
     timeoutCalls := timeoutCalls s; retryCalls := retryCalls s;
     currBlockNumber := currBlockNumber s |}.

Definition addTotalCallMs (ms : Z) (s : t) : t :=
  {| totalReqs := totalReqs s; totalCalls := totalCalls s;
     totalCallMs := totalCallMs s + ms; failCalls := failCalls s;
     timeoutCalls := timeoutCalls s; retryCalls := retryCalls s;
     currBlockNumber := currBlockNumber s |}.

Definition incrFailCalls (s : t) : t :=
  {| totalReqs := totalReqs s; totalCalls := totalCalls s;
     totalCallMs := totalCallMs s; failCalls := failCalls s + 1;
     timeoutCalls := timeoutCalls s; retryCalls := retryCalls s;
     currBlockNumber := currBlockNumber s |}.

Definition incrTimeoutCalls (s : t) : t :=
  {| totalReqs := totalReqs s; totalCalls := totalCalls s;
     totalCallMs := totalCallMs s; failCalls := failCalls s;
     timeoutCalls := timeoutCalls s + 1; retryCalls := retryCalls s;
     currBlockNumber := currBlockNumber s |}.

Definition incrRetryCalls (s : t) : t :=
  {| totalReqs := totalReqs s; totalCalls := totalCalls s;
     totalCallMs := totalCallMs s; failCalls := failCalls s;
     timeoutCalls := timeoutCalls s; retryCalls := retryCalls s + 1;
     currBlockNumber := currBlockNumber s |}.

Definition addCurrBlockNumber (n : Z) (s : t) : t :=
  {| totalReqs := totalReqs s; totalCalls := totalCalls s;
     totalCallMs := totalCallMs s; failCalls := failCalls s;
     timeoutCalls := timeoutCalls s; retryCalls := retryCalls s;
     currBlockNumber := currBlockNumber s + n |}.
End Scheduler.

(** *** The hooks (lines 330-355) *)

(** Lines 330-335. *)
Definition preflightFunc (st : Scheduler.t) : Scheduler.t :=
  Scheduler.incrTotalReqs st.

(** Lines 337-343: [startTimeMs] is the header stamped by [preflightFunc],
    [now] the reading of [Date.now()]. *)
Definition processFunc (startTimeMs now : Z) (st : Scheduler.t) : Scheduler.t :=
  let callTimeMs := now - startTimeMs in
  Scheduler.addTotalCallMs callTimeMs (Scheduler.incrTotalCalls st).

(** A function body whose statements may [return]. *)
Inductive Body (A : Type) : Type :=
| Running (st : Scheduler.t)
| Return (v : A) (st : Scheduler.t).
Arguments Running {A} st.
Arguments Return {A} v st.

Definition andThen {A} (b : Body A) (next : Scheduler.t -> Body A) : Body A :=
  match b with
  | Running st => next st
  | Return v st => Return v st
  end.

(** Lines 345-355, statement by statement: the [return false] of line 346
    comes first, the 429 branch after it. *)
Definition retryFuncBody (statusCode attempt : Z) (st : Scheduler.t) : Body bool :=
  andThen (Return false st) (fun st =>
  andThen (if statusCode =? 429
           then if attempt <=? 3
                then Return true (Scheduler.incrRetryCalls st)
                else Running st
           else Running st) (fun st =>
  Return false st)).

Definition retryFunc (statusCode attempt : Z) (st : Scheduler.t)
  : bool * Scheduler.t :=
  match retryFuncBody statusCode attempt st with
  | Return v st' => (v, st')
  | Running st' => (false, st')
  end.

(** One run of a hook, as the transport makes it. *)
Inductive HookCall :=
| Preflight
| Process (startTimeMs now : Z)
| Retry (statusCode attempt : Z).

Definition runHook (h : HookCall) (st : Scheduler.t) : Scheduler.t :=
  match h with
  | Preflight => preflightFunc st
  | Process startTimeMs now => processFunc startTimeMs now st
  | Retry statusCode attempt => snd (retryFunc statusCode attempt st)
  end.

Definition runHooks (hs : list HookCall) (st : Scheduler.t) : Scheduler.t :=
  fold_left (fun st h => runHook h st) hs st.

(** *** One iteration of the loop (lines 363-424) *)

(** What one iteration meets. *)
Record IterEnv := {
  (** [Date.now()] at line 370 *)
  loopNow : Z;
  (** [provider.getBlockNumber()] at line 381 *)
  getBlockNumber : Js.Promise Z;
  (** the hooks that run while the loop awaits the tip *)
  hooksWhilePolling : list HookCall;
  (** the hooks that run while the loop sleeps or awaits the batch *)
  hooksWhileWaiting : list HookCall;
  (** the provider as the [processBlock] invocation of each block meets it *)
  provider : Z -> BlockEnv
}.

(** What the loop does that can be seen from outside. *)
Inductive Event :=
| StopFinish                      (* line 366 *)
| StopTime                        (* line 372 *)
| Rollback (prev latest : Z)      (* line 383 *)
| Sleep (ms : Z)                  (* line 390 *)
| Invoke (blockNumber : Z)        (* line 397: processBlock is called *)
| Joined (at_ : nat)              (* line 400: the await hands control back *)
| FailureLogged (f : Failure)     (* line 404 *)
| FailedButSkip                   (* line 416 *)
| BatchFinished (curr width : Z)  (* line 419 *)
| Caught (err : string)           (* line 422 *)
| ReachedLatest (latest : Z)      (* line 132, earlier revision only *)
| RetryBatch.                     (* line 153, earlier revision only *)

(** How an iteration ends: the next one starts, the loop is left by
    [break], or the process is ended by [process.exit]. *)
Inductive Flow := Continue | Break | Exit (code : Z).

(** Lines 394-398: the block numbers handed to [processBlock]. *)
Definition batchBlocks (currBlockNumber batchSize : Z) : list Z :=
  map (fun batchIdx => currBlockNumber + Z.of_nat batchIdx + 1)
      (seq 0 (Z.to_nat batchSize)).

Definition batchPromises (idx : Z) (cfg : TestConfig.t) (env : IterEnv)
  (currBlockNumber batchSize : Z) : list (Js.Promise (list Failure)) :=
  map (fun blockNumber => processBlock idx cfg (provider env blockNumber) blockNumber)
      (batchBlocks currBlockNumber batchSize).

(** Lines 403-410, for one failure. *)
Definition countFailure (f : Failure) (st : Scheduler.t) : Scheduler.t :=
  let st := Scheduler.incrFailCalls st in
  if Js.includes (reason f) "timeout" then Scheduler.incrTimeoutCalls st else st.

(** Lines 402-411: the counters and [isFailed] after the two loops. *)
Fixpoint countBlock (fails : list Failure) (acc : Scheduler.t * bool)
  : Scheduler.t * bool :=
  match fails with
  | [] => acc
  | f :: rest => countBlock rest (countFailure f (fst acc), true)
  end.

Fixpoint countResults (results : list (list Failure)) (acc : Scheduler.t * bool)
  : Scheduler.t * bool :=
  match results with
  | [] => acc
  | fails :: rest => countResults rest (countBlock fails acc)
  end.

(** Lines 394-423: the batch, from the tip [latestBlockNumber] just
    observed; [st] holds the counters as they are when the batch is
    dispatched. *)
Definition dispatch (idx : Z) (cfg : TestConfig.t) (env : IterEnv)
  (st : Scheduler.t) (latestBlockNumber : Z) : Flow * Scheduler.t * list Event :=
  let currBlockNumber := Scheduler.currBlockNumber st in
  (* 394 *)
  let batchSize := Z.min (TestConfig.batchSize cfg)
                         (latestBlockNumber - currBlockNumber) in
  let promises := batchPromises idx cfg env currBlockNumber batchSize in
  let invoked := map Invoke (batchBlocks currBlockNumber batchSize) in
  (* 400 *)
  let joined := Js.all (Js.settledAt (getBlockNumber env)) promises in
  let st := runHooks (hooksWhileWaiting env) st in
  match Js.outcome joined with
  | Js.Rejected err =>
      (* 421 *)
      (Continue, st,
       invoked ++ [Joined (Js.settledAt joined); Caught (Js.toString err)])
  | Js.Fulfilled results =>
      let '(st, isFailed) := countResults results (st, false) in
      let logged := map FailureLogged (List.concat results) in
      let skip := if isFailed then [FailedButSkip] else [] in
      (* 420 *)
      (Continue, Scheduler.addCurrBlockNumber batchSize st,
       invoked ++ [Joined (Js.settledAt joined)] ++ logged ++ skip
         ++ [BatchFinished currBlockNumber batchSize])
  end.

Definition iteration (idx : Z) (cfg : TestConfig.t) (env : IterEnv)
  (st : Scheduler.t) : Flow * Scheduler.t * list Event :=
  let currBlockNumber := Scheduler.currBlockNumber st in
  (* 365 *)
  if match TestConfig.finishBlockNumber cfg with
     | Some finishBlockNumber => currBlockNumber >? finishBlockNumber
     | None => false
     end
  then (Break, st, [StopFinish])
  else
  let loopStartTime := loopNow env in
  (* 371 *)
  if match TestConfig.targetRunningTimeMs cfg with
     | Some target => loopStartTime - TestConfig.startTimeMs cfg >=? target
     | None => false
     end
  then (Break, st, [StopTime])
  else
  (* 377 *)
  let prevLatestBlockNumber := 0 in
  (* 381 *)
  let st := runHooks (hooksWhilePolling env) st in
  match Js.outcome (getBlockNumber env) with
  | Js.Rejected err => (Continue, st, [Caught (Js.toString err)])
  | Js.Fulfilled latestBlockNumber =>
      (* 382 *)
      if negb (prevLatestBlockNumber =? 0)
         && (prevLatestBlockNumber >? latestBlockNumber)
      then (Exit 1, st, [Rollback prevLatestBlockNumber latestBlockNumber])
      else
      (* 386 *)
      let prevLatestBlockNumber := latestBlockNumber in
      (* 388 *)
      if currBlockNumber >=? latestBlockNumber
      then (Continue, runHooks (hooksWhileWaiting env) st, [Sleep 200])
      else dispatch idx cfg env st latestBlockNumber
  end.

(** *** The loop and the result (lines 359-435) *)

(** What one [startScheduler] call meets. *)
Record RunEnv := {
  (** [provider.getBlockNumber()] at line 359, awaited when the
      configuration names no start block *)
  startPoll : Js.Promise Z;
  hooksAtStart : list HookCall;
  iterEnv : nat -> IterEnv;
  (** [Date.now()] at line 430 *)
  returnNow : Z
}.

(** [loop fuel ... k st] runs iterations [k], [k+1], ... from [st], at most
    [fuel] of them: it answers [Break] or [Exit] once an iteration leaves
    the loop, and [Continue] when the loop is still running after [fuel]
    iterations. *)
Fixpoint loop (fuel : nat) (idx : Z) (cfg : TestConfig.t) (envs : nat -> IterEnv)
  (k : nat) (st : Scheduler.t) : Flow * Scheduler.t * list Event :=
  match fuel with
  | O => (Continue, st, [])
  | S fuel' =>
      match iteration idx cfg (envs k) st with
      | (Continue, st', evs) =>
          let '(flow, st'', evs') := loop fuel' idx cfg envs (S k) st' in
          (flow, st'', evs ++ evs')
      | stopped => stopped
      end
  end.

(** How a [startScheduler] call ends. *)
Inductive Completion :=
| Returned (result : TestResult.t)
| Exited (code : Z)
| Thrown (err : Js.Error).

Definition result (idx : Z) (cfg : TestConfig.t) (startBlockNumber : Z)
  (now : Z) (st : Scheduler.t) : TestResult.t :=
  {| TestResult.idx := idx;
     TestResult.calls := Scheduler.totalCalls st;
     TestResult.failCalls := Scheduler.failCalls st;
     TestResult.retryCalls := Scheduler.retryCalls st;
     TestResult.finishTimeMs := now;
     TestResult.startBlockNumber := startBlockNumber;
     TestResult.finishBlockNumber := Scheduler.currBlockNumber st - 1;
     TestResult.totalCallMs := Scheduler.totalCallMs st;
     TestResult.rpcUrl := TestConfig.rpcUrl cfg |}.

(** [None]: the loop is still running after [fuel] iterations. *)
Definition startScheduler (fuel : nat) (idx : Z) (cfg : TestConfig.t)
  (env : RunEnv) : option (Completion * list Event) :=
  (* 359 *)
  let start :=
    match TestConfig.startBlockNumber cfg with
    | Some n => Js.Fulfilled (n, Scheduler.init n)
    | None =>
        match Js.outcome (startPoll env) with
        | Js.Fulfilled n =>
            Js.Fulfilled (n, runHooks (hooksAtStart env) (Scheduler.init n))
        | Js.Rejected err => Js.Rejected err
        end
    end in
  match start with
  | Js.Rejected err => Some (Thrown err, [])
  | Js.Fulfilled (startBlockNumber, st) =>
      match loop fuel idx cfg (iterEnv env) 0 st with
      | (Continue, _, _) => None
      | (Exit code, _, evs) => Some (Exited code, evs)
      | (Break, st', evs) =>
          Some (Returned (result idx cfg startBlockNumber (returnNow env) st'), evs)
      end
  end.

(* ------------------------------------------------------------------ *)
(** ** The earlier revision of the loop (lines 74-165) *)

(** The first revision keeps no [totalReqs] and no [timeoutCalls]; it
    dispatches from the pointer itself and holds the pointer back when a
    receipt failed.  Its [processBlock] (lines 37-72) stores the rejection
    reason as it is and the loop only prints it inside a template literal,
    which stringifies it, so [processBlock] above stands for it. *)
Module Earlier.

(** Lines 83-86. *)
Definition preflightFunc (st : Scheduler.t) : Scheduler.t := st.

Definition runHook (h : HookCall) (st : Scheduler.t) : Scheduler.t :=
  match h with
  | Preflight => preflightFunc st
  | Process startTimeMs now => processFunc startTimeMs now st
  | Retry statusCode attempt => snd (retryFunc statusCode attempt st)
  end.

Definition runHooks (hs : list HookCall) (st : Scheduler.t) : Scheduler.t :=
  fold_left (fun st h => runHook h st) hs st.

(** Lines 136-140. *)
Definition batchBlocks (currBlockNumber batchSize : Z) : list Z :=
  map (fun batchIdx => currBlockNumber + Z.of_nat batchIdx)
      (seq 0 (Z.to_nat batchSize)).

Definition batchPromises (idx : Z) (cfg : TestConfig.t) (env : IterEnv)
  (currBlockNumber batchSize : Z) : list (Js.Promise (list Failure)) :=
  map (fun blockNumber => processBlock idx cfg (provider env blockNumber) blockNumber)
      (batchBlocks currBlockNumber batchSize).

(** Lines 144-150. *)
Fixpoint countBlock (fails : list Failure) (acc : Scheduler.t * bool)
  : Scheduler.t * bool :=
  match fails with
  | [] => acc
  | f :: rest => countBlock rest (Scheduler.incrFailCalls (fst acc), true)
  end.

Fixpoint countResults (results : list (list Failure)) (acc : Scheduler.t * bool)
  : Scheduler.t * bool :=
  match results with
  | [] => acc
  | fails :: rest => countResults rest (countBlock fails acc)
  end.

(** Lines 136-158. *)
Definition dispatch (idx : Z) (cfg : TestConfig.t) (env : IterEnv)
  (st : Scheduler.t) (latestBlockNumber : Z) : Flow * Scheduler.t * list Event :=
  let currBlockNumber := Scheduler.currBlockNumber st in
  (* 136 *)
  let batchSize := Z.min (TestConfig.batchSize cfg)
                         (latestBlockNumber - currBlockNumber) in
  let promises := batchPromises idx cfg env currBlockNumber batchSize in
  let invoked := map Invoke (batchBlocks currBlockNumber batchSize) in
  (* 142 *)
  let joined := Js.all (Js.settledAt (getBlockNumber env)) promises in
  let st := runHooks (hooksWhileWaiting env) st in
  match Js.outcome joined with
  | Js.Rejected err =>
      (* 159 *)
      (Continue, st,
       invoked ++ [Joined (Js.settledAt joined); Caught (Js.toString err)])
  | Js.Fulfilled results =>
      let '(st, isFailed) := countResults results (st, false) in
      let logged := map FailureLogged (List.concat results) in
      if isFailed
      then (* 152 *)
        (Continue, st,
         invoked ++ [Joined (Js.settledAt joined)] ++ logged ++ [RetryBatch])
      else (* 158 *)
        (Continue, Scheduler.addCurrBlockNumber batchSize st,
         invoked ++ [Joined (Js.settledAt joined)] ++ logged
           ++ [BatchFinished currBlockNumber batchSize])
  end.

(** Lines 115-163. *)
Definition iteration (idx : Z) (cfg : TestConfig.t) (env : IterEnv)
  (st : Scheduler.t) : Flow * Scheduler.t * list Event :=
  let currBlockNumber := Scheduler.currBlockNumber st in
  (* 116 *)
  if match TestConfig.finishBlockNumber cfg with
     | Some finishBlockNumber => currBlockNumber >? finishBlockNumber
     | None => false
     end
  then (Break, st, [StopFinish])
  else
  let loopStartTime := loopNow env in
  (* 122 *)
  if match TestConfig.targetRunningTimeMs cfg with
     | Some target => loopStartTime - TestConfig.startTimeMs cfg >=? target
     | None => false
     end
  then (Break, st, [StopTime])
  else
  (* 130 *)
  let st := runHooks (hooksWhilePolling env) st in
  match Js.outcome (getBlockNumber env) with
  | Js.Rejected err => (Continue, st, [Caught (Js.toString err)])
  | Js.Fulfilled latestBlockNumber =>
      (* 131 *)
      if currBlockNumber >=? latestBlockNumber
      then (Continue, st, [ReachedLatest latestBlockNumber])
      else dispatch idx cfg env st latestBlockNumber
  end.

(** Lines 115-163 repeated: iterations [k], [k+1], ... from [st], at most
    [fuel] of them; [Continue] when the loop is still running after that. *)
Fixpoint loop (fuel : nat) (idx : Z) (cfg : TestConfig.t) (envs : nat -> IterEnv)
  (k : nat) (st : Scheduler.t) : Flow * Scheduler.t * list Event :=
  match fuel with
  | O => (Continue, st, [])
  | S fuel' =>
      match iteration idx cfg (envs k) st with
      | (Continue, st', evs) =>
          let '(flow, st'', evs') := loop fuel' idx cfg envs (S k) st' in
          (flow, st'', evs ++ evs')
      | stopped => stopped
      end
  end.

End Earlier.

(* ------------------------------------------------------------------ *)
(** ** The summary of main (lines 463-477) *)

Record Summary := {
  elapsedTimeSecs : float;
  avgCallTimeMs : float;
  avgCallTimeSec : float;
  rps : float
}.

Definition summary (startTimeMs : Z) (r : TestResult.t) : Summary :=
  let elapsedTimeSecs :=
    ((Js.number (TestResult.finishTimeMs r) - Js.number startTimeMs) / 1000)%float in
  {| elapsedTimeSecs := elapsedTimeSecs;
     avgCallTimeMs :=
       (Js.number (TestResult.totalCallMs r) / Js.number (TestResult.calls r))%float;
     avgCallTimeSec :=
       (Js.number (TestResult.totalCallMs r) / Js.number (TestResult.calls r) / 1000)%float;
     rps := (Js.number (TestResult.calls r) / elapsedTimeSecs)%float |}.

(* ------------------------------------------------------------------ *)
(** ** The Solana scheduler (src/unnamed/part_000) *)

(** The script follows the slots from some minutes ago up to the latest
    one, fetching them in bulks.  Its numbers that come out of [parseInt]
    or of arithmetic on such may be NaN: they are integers or [None]. *)
Module Solana.

(** A JavaScript number that is an integer, or NaN. *)
Definition Num := option Z.

(** [a <= b]: false when either side is NaN. *)
Definition leq (a b : Num) : bool :=
  match a, b with
  | Some x, Some y => x <=? y
  | _, _ => false
  end.

Definition add (a b : Num) : Num :=
  match a, b with
  | Some x, Some y => Some (x + y)
  | _, _ => None
  end.

Definition sub (a b : Num) : Num :=
  match a, b with
  | Some x, Some y => Some (x - y)
  | _, _ => None
  end.

(** [Math.min], [Math.max]: NaN when either argument is. *)
Definition min (a b : Num) : Num :=
  match a, b with
  | Some x, Some y => Some (Z.min x y)
  | _, _ => None
  end.

Definition max (a b : Num) : Num :=
  match a, b with
  | Some x, Some y => Some (Z.max x y)
  | _, _ => None
  end.

(** [Math.floor] of a binary64 number; NaN for NaN and the infinities. *)
Definition floor (x : float) : Num :=
  match Prim2SF x with
  | S754_zero _ => Some 0
  | S754_finite s m e =>
      let n := if s then Z.neg m else Z.pos m in
      Some (if 0 <=? e then n * 2 ^ e else n / 2 ^ (- e))
  | _ => None
  end.

(** Lines 15-23. *)
Record SchedulerStats := {
  totalGetBlockCalls : Z;
  totalLatency : Z;
  startBlock : Num;
  endBlock : Num;
  startTime : Z;
  endTime : Z;
  errors : Z
}.

(** Lines 31-36: the division is a binary64 division, by the binary64
    number the literal 0.4 denotes. *)
Definition getBlockFromMinutesAgo (currentSlot : Z) (minutes : Num) : Num :=
  match minutes with
  | None => None
  | Some minutes =>
      let seconds := (Js.number minutes * 60)%float in
      let blocksToGoBack := floor (seconds / 0x1.999999999999ap-2)%float in
      max (Some 0) (sub (Some currentSlot) blocksToGoBack)
  end.

(** What one [getBlocksBulk] call meets: the answer to the [getBlock]
    request of each slot (line 77) and the readings of [Date.now()]
    before and after it. *)
Record BulkEnv := {
  getBlockWithAxios : Z -> Js.Promise unit;
  startNow : Z -> Z;
  endNow : Z -> Z
}.

(** Lines 74-87, the body of the task of one slot: both branches add the
    latency and count the call, the [catch] branch counts the error. *)
Definition fetchSlot (env : BulkEnv) (slot : Z) (stats : SchedulerStats)
  : SchedulerStats :=
  let startTime := startNow env slot in
  let endTime := endNow env slot in
  match Js.outcome (getBlockWithAxios env slot) with
  | Js.Fulfilled _ =>
      {| totalGetBlockCalls := totalGetBlockCalls stats + 1;
         totalLatency := totalLatency stats + (endTime - startTime);
         startBlock := startBlock stats; endBlock := endBlock stats;
         startTime := Solana.startTime stats; endTime := Solana.endTime stats;
         errors := errors stats |}
  | Js.Rejected error =>
      {| totalGetBlockCalls := totalGetBlockCalls stats + 1;
         totalLatency := totalLatency stats + (endTime - startTime);
         startBlock := startBlock stats; endBlock := endBlock stats;
         startTime := Solana.startTime stats; endTime := Solana.endTime stats;
         errors := errors stats + 1 |}
  end.

(** The promise of the task of one slot: the [try]/[catch] swallows a
    rejection, so it fulfils when the request settles. *)
Definition slotTask (env : BulkEnv) (slot : Z) : Js.Promise unit :=
  Js.resolveAt (Js.settledAt (getBlockWithAxios env slot)) tt.

(** Lines 69-91: the join of the tasks, called at instant [t0], and the
    statistics once it has settled.  The tasks add to the same fields, so
    the order in which they finish does not show in the sums. *)
Definition getBlocksBulk (t0 : nat) (env : BulkEnv) (slots : list Z)
  (stats : SchedulerStats) : Js.Promise (list unit) * SchedulerStats :=
  (Js.all t0 (map (slotTask env) slots),
   fold_left (fun stats slot => fetchSlot env slot stats) slots stats).

(** Lines 165-169: [for (slot = currentSlot; slot <= endSlot; slot++)]. *)
Definition slotsToFetch (currentSlot : Z) (endSlot : Num) : list Z :=
  match endSlot with
  | Some endSlot =>
      map (fun i => currentSlot + Z.of_nat i)
          (seq 0 (Z.to_nat (endSlot - currentSlot + 1)))
  | None => []
  end.

(** Lines 162-183: the loop from [currentSlot], bulk [k] first; the bulks
    fetched are returned with the statistics.  [None]: the loop is still
    running after [fuel] iterations. *)
Fixpoint follow (fuel : nat) (BULK_SIZE : Num) (latestSlot : Z)
  (envs : nat -> BulkEnv) (k : nat) (currentSlot : Num) (stats : SchedulerStats)
  : option (SchedulerStats * list (list Z)) :=
  match fuel with
  | O => None
  | S fuel' =>
      if leq currentSlot (Some latestSlot)
      then
        let endSlot := min (sub (add currentSlot BULK_SIZE) (Some 1))
                           (Some latestSlot) in
        let slots :=
          match currentSlot with
          | Some c => slotsToFetch c endSlot
          | None => []
          end in
        let '(_, stats) := getBlocksBulk 0 (envs k) slots stats in
        match follow fuel' BULK_SIZE latestSlot envs (S k)
                (add endSlot (Some 1)) stats with
        | Some (stats, bulks) => Some (stats, slots :: bulks)
        | None => None
        end
      else Some (stats, [])
  end.

(** What one run meets. *)
Record RunEnv := {
  (** [BULK_SIZE] and [MINUTES_AGO]: [parseInt] of the environment
      variables, NaN when they do not start with a number *)
  BULK_SIZE : Num;
  MINUTES_AGO : Num;
  (** [Date.now()] at line 140 and at line 185 *)
  runStartNow : Z;
  runEndNow : Z;
  (** [getLatestSlot] at line 148 *)
  getLatestSlot : Js.Promise Z;
  bulkEnv : nat -> BulkEnv
}.

(** How a run ends: the results are printed, or the process is ended by
    [process.exit(1)] in the handler of line 196. *)
Inductive Completion :=
| Printed (stats : SchedulerStats) (bulks : list (list Z))
| Exited (code : Z).

(** Lines 94-199.  [None]: still running after [fuel] bulks. *)
Definition runSolanaScheduler (fuel : nat) (env : RunEnv) : option Completion :=
  let stats :=
    {| totalGetBlockCalls := 0; totalLatency := 0;
       startBlock := Some 0; endBlock := Some 0;
       startTime := runStartNow env; endTime := 0; errors := 0 |} in
  match Js.outcome (getLatestSlot env) with
  | Js.Rejected error => Some (Exited 1)
  | Js.Fulfilled latestSlot =>
      let startSlot := getBlockFromMinutesAgo latestSlot (MINUTES_AGO env) in
      let stats :=
        {| totalGetBlockCalls := totalGetBlockCalls stats;
           totalLatency := totalLatency stats;
           startBlock := startSlot; endBlock := Some latestSlot;
           startTime := startTime stats; endTime := endTime stats;
           errors := errors stats |} in
      match follow fuel (BULK_SIZE env) latestSlot (bulkEnv env) 0 startSlot stats with
      | None => None
      | Some (stats, bulks) =>
          Some (Printed
                  {| totalGetBlockCalls := totalGetBlockCalls stats;
                     totalLatency := totalLatency stats;
                     startBlock := startBlock stats; endBlock := endBlock stats;
                     startTime := startTime stats; endTime := runEndNow env;
                     errors := errors stats |} bulks)
      end
  end.

End Solana.

(* ================================================================== *)
(** * The vocabulary of the properties *)

(** The number of receipt requests of [txs] that reject, counted on the
    provider's answers, from position [i]. *)
Fixpoint rejectedReceipts (provider : BlockEnv) (i : nat) (txs : list TxHash) : nat :=
  match txs with
  | [] => 0
  | tx :: rest =>
      (if Js.isRejected (Js.outcome (getTransactionReceipt provider i tx))
       then 1 else 0) + rejectedReceipts provider (S i) rest
  end.

(** C4 as worded: [processBlock] raises only when the block fetch reports
    the block absent, that is, answers [null]. *)
Definition raisesOnlyWhenBlockAbsent (provider : BlockEnv) : Prop :=
  forall idx cfg blockNumber,
    Js.isRejected (Js.outcome (processBlock idx cfg provider blockNumber)) = true ->
    Js.outcome (getBlock provider) = Js.Fulfilled None.

(** The counts of [b] are those of [a] or larger.  ([totalCallMs] is not a
    count: it adds up differences of clock readings.) *)
Definition countersLe (a b : Scheduler.t) : Prop :=
  Scheduler.totalReqs a <= Scheduler.totalReqs b /\
  Scheduler.totalCalls a <= Scheduler.totalCalls b /\
  Scheduler.failCalls a <= Scheduler.failCalls b /\
  Scheduler.timeoutCalls a <= Scheduler.timeoutCalls b /\
  Scheduler.retryCalls a <= Scheduler.retryCalls b.

(** The order the counts keep. *)
Definition countersOrdered (st : Scheduler.t) : Prop :=
  0 <= Scheduler.totalReqs st /\
  0 <= Scheduler.totalCalls st /\
  0 <= Scheduler.timeoutCalls st <= Scheduler.failCalls st /\
  0 <= Scheduler.retryCalls st.

(** What every update of the scheduler's variables respects: no counter
    decreases, the order of the counters is kept, [retryCalls] stays. *)
Definition evolves (a b : Scheduler.t) : Prop :=
  countersLe a b /\
  (countersOrdered a -> countersOrdered b) /\
  Scheduler.retryCalls b = Scheduler.retryCalls a.

(** The stopping conditions of lines 365-375 do not hold for the pointer
    [curr]. *)
Definition keepsRunning (cfg : TestConfig.t) (env : IterEnv) (curr : Z) : Prop :=
  match TestConfig.finishBlockNumber cfg with
  | Some finishBlockNumber => curr <= finishBlockNumber
  | None => True
  end /\
  match TestConfig.targetRunningTimeMs cfg with
  | Some target => loopNow env - TestConfig.startTimeMs cfg < target
  | None => True
  end.

(** The iteration reaches the dispatch: the loop is not stopped, the poll
    answers the tip [latest], and the pointer [curr] is behind it. *)
Definition dispatching (cfg : TestConfig.t) (env : IterEnv) (curr latest : Z) : Prop :=
  keepsRunning cfg env curr /\
  Js.outcome (getBlockNumber env) = Js.Fulfilled latest /\
  curr < latest.

(** Line 394. *)
Definition batchWidth (cfg : TestConfig.t) (curr latest : Z) : Z :=
  Z.min (TestConfig.batchSize cfg) (latest - curr).

(** Some invocation of the batch raises. *)
Definition someRaises (idx : Z) (cfg : TestConfig.t) (env : IterEnv)
  (blocks : list Z) : Prop :=
  exists b, In b blocks /\
    Js.isRejected (Js.outcome (processBlock idx cfg (provider env b) b)) = true.

(** Every invocation of the batch returns. *)
Definition allReturn (idx : Z) (cfg : TestConfig.t) (env : IterEnv)
  (blocks : list Z) : Prop :=
  forall b, In b blocks ->
    Js.isRejected (Js.outcome (processBlock idx cfg (provider env b) b)) = false.

(** The events [f] selects, in order. *)
Fixpoint pick {A} (f : Event -> option A) (evs : list Event) : list A :=
  match evs with
  | [] => []
  | e :: rest =>
      match f e with
      | Some a => a :: pick f rest
      | None => pick f rest
      end
  end.

(** The block numbers [processBlock] was called with, in order. *)
Definition invokedBlocks : list Event -> list Z :=
  pick (fun e => match e with Invoke b => Some b | _ => None end).

(** The instants at which a batch join handed control back to the loop. *)
Definition joinInstants : list Event -> list nat :=
  pick (fun e => match e with Joined t => Some t | _ => None end).

(** The pauses of the loop. *)
Definition sleeps : list Event -> list Z :=
  pick (fun e => match e with Sleep ms => Some ms | _ => None end).

(** The failures the loop counted. *)
Definition loggedFailures : list Event -> list Failure :=
  pick (fun e => match e with FailureLogged f => Some f | _ => None end).

(** [len] consecutive integers from [lo]. *)
Fixpoint consecutive (lo : Z) (len : nat) : list Z :=
  match len with
  | O => []
  | S len' => lo :: consecutive (lo + 1) len'
  end.

(** C2 as worded: the batch is made of the width's worth of consecutive
    blocks starting at the pointer itself. *)
Definition dispatchesFromPointer (idx : Z) (cfg : TestConfig.t) (env : IterEnv)
  (st : Scheduler.t) : Prop :=
  forall latest,
    dispatching cfg env (Scheduler.currBlockNumber st) latest ->
    invokedBlocks (snd (iteration idx cfg env st))
    = consecutive (Scheduler.currBlockNumber st)
        (Z.to_nat (batchWidth cfg (Scheduler.currBlockNumber st) latest)).

(** C6 as worded: when the join hands control back, every invocation of
    the batch has settled. *)
Definition joinWaitsForAll (idx : Z) (cfg : TestConfig.t) (env : IterEnv)
  (st : Scheduler.t) : Prop :=
  let evs := snd (iteration idx cfg env st) in
  forall t b,
    In t (joinInstants evs) -> In b (invokedBlocks evs) ->
    (Js.settledAt (processBlock idx cfg (provider env b) b) <= t)%nat.

(** Iterations [k], ..., [k+n-1] each reach the dispatch from the pointer
    [curr] and each have an invocation that raises. *)
Definition keepsRaising (idx : Z) (cfg : TestConfig.t) (envs : nat -> IterEnv)
  (k n : nat) (curr : Z) : Prop :=
  forall j, (j < n)%nat ->
    exists latest,
      dispatching cfg (envs (k + j)%nat) curr latest /\
      someRaises idx cfg (envs (k + j)%nat)
        (batchBlocks curr (batchWidth cfg curr latest)).

(** The block is there and none of its receipt requests is rejected. *)
Definition cleanBlock (p : BlockEnv) : Prop :=
  (exists block, Js.outcome (getBlock p) = Js.Fulfilled (Some block)) /\
  forall i tx, Js.isRejected (Js.outcome (getTransactionReceipt p i tx)) = false.

(** The pointer of the loop when iteration [k] starts. *)
Definition pointerAt (idx : Z) (cfg : TestConfig.t) (env : RunEnv) (start : Z)
  (k : nat) : Z :=
  Scheduler.currBlockNumber
    (snd (fst (loop k idx cfg (iterEnv env) 0 (Scheduler.init start)))).

(** Every poll answers a tip at least one batch size ahead of the pointer. *)
Definition tipStaysAhead (idx : Z) (cfg : TestConfig.t) (env : RunEnv)
  (start : Z) : Prop :=
  forall k, exists tip,
    Js.outcome (getBlockNumber (iterEnv env k)) = Js.Fulfilled tip /\
    pointerAt idx cfg env start k + TestConfig.batchSize cfg <= tip.

(** The time bound, if any, is not reached at any iteration. *)
Definition withinTimeBound (cfg : TestConfig.t) (env : RunEnv) : Prop :=
  forall k,
    match TestConfig.targetRunningTimeMs cfg with
    | Some target => loopNow (iterEnv env k) - TestConfig.startTimeMs cfg < target
    | None => True
    end.

(** The specification's words: average latency is the total call time
    divided by the number of calls; calls per second is the number of calls
    divided by the elapsed seconds, the elapsed seconds being finish time
    minus start time, in milliseconds, divided by 1000.  Numbers are
    JavaScript numbers (binary64). *)
Definition specAverageLatencyMs (totalCallMs calls : Z) : float :=
  (Js.number totalCallMs / Js.number calls)%float.

Definition specElapsedSeconds (startTimeMs finishTimeMs : Z) : float :=
  ((Js.number finishTimeMs - Js.number startTimeMs) / 1000)%float.

Definition specCallsPerSecond (calls : Z) (elapsedSeconds : float) : float :=
  (Js.number calls / elapsedSeconds)%float.

(** The errors the loop caught (line 422). *)
Definition caughtErrors : list Event -> list string :=
  pick (fun e => match e with Caught err => Some err | _ => None end).

(** The loop is not stopped and the poll answers a tip that is not ahead
    of the pointer [curr]. *)
Definition caughtUp (cfg : TestConfig.t) (env : IterEnv) (curr : Z) : Prop :=
  keepsRunning cfg env curr /\
  exists latest,
    Js.outcome (getBlockNumber env) = Js.Fulfilled latest /\ latest <= curr.

(** The loop is not stopped and the poll is rejected. *)
Definition pollFails (cfg : TestConfig.t) (env : IterEnv) (curr : Z) : Prop :=
  keepsRunning cfg env curr /\
  exists err, Js.outcome (getBlockNumber env) = Js.Rejected err.

(** The failures the invocations of [blocks] return, in block order. *)
Definition returnedFailures (idx : Z) (cfg : TestConfig.t) (env : IterEnv)
  (blocks : list Z) : list Failure :=
  flat_map
    (fun b =>
       match Js.outcome (processBlock idx cfg (provider env b) b) with
       | Js.Fulfilled fails => fails
       | Js.Rejected _ => []
       end)
    blocks.

(** The test of line 406. *)
Definition isTimeout (f : Failure) : bool := Js.includes (reason f) "timeout".

(** A run of [processFunc] whose clock did not go back since the request
    was stamped. *)
Definition clockForward (h : HookCall) : Prop :=
  match h with
  | Process startTimeMs now => startTimeMs <= now
  | _ => True
  end.

(** Every hook run of the iteration satisfies [Q]. *)
Definition hooksAll (Q : HookCall -> Prop) (env : IterEnv) : Prop :=
  Forall Q (hooksWhilePolling env) /\ Forall Q (hooksWhileWaiting env).

(** No response has been counted, or none at all and no latency either. *)
Definition latencyNeedsCalls (st : Scheduler.t) : Prop :=
  0 <= Scheduler.totalCalls st /\
  (Scheduler.totalCalls st = 0 -> Scheduler.totalCallMs st = 0).

(** The [getBlock] request of [slot] is rejected. *)
Definition slotFails (env : Solana.BulkEnv) (slot : Z) : bool :=
  Js.isRejected (Js.outcome (Solana.getBlockWithAxios env slot)).


(* ------------------------------------------------------------------ *)
(** ** Sample environments *)

(** A block fetch that times out: the request is rejected, nothing is said
    about the block. *)
Definition fetchTimesOut : BlockEnv :=
  {| getBlock := Js.rejectAt 3 (Js.Error_ "request timeout");
     getTransactionReceipt := fun _ _ => Js.resolveAt 4 None;
     failureNow := fun _ => 0 |}.

(** A block that exists and holds no transaction; its fetch settles at
    instant [t]. *)
Definition emptyBlockAt (t : nat) : BlockEnv :=
  {| getBlock := Js.resolveAt t (Some {| transactions := [] |});
     getTransactionReceipt := fun _ _ => Js.resolveAt t None;
     failureNow := fun _ => 0 |}.

(** A block the node does not have; the fetch answers [null] at instant [t]. *)
Definition absentBlockAt (t : nat) : BlockEnv :=
  {| getBlock := Js.resolveAt t None;
     getTransactionReceipt := fun _ _ => Js.resolveAt t None;
     failureNow := fun _ => 0 |}.

(** A block of three transactions whose receipt requests all time out: the
    fetch settles at instant [t], the receipts ten instants later. *)
Definition timedOutReceiptsAt (t : nat) : BlockEnv :=
  {| getBlock := Js.resolveAt t (Some {| transactions := ["0xa"; "0xb"; "0xc"] |});
     getTransactionReceipt :=
       fun _ _ => Js.rejectAt (t + 10) (Js.Error_ "request timeout");
     failureNow := fun i => 1700000000000 + Z.of_nat i |}.

(** An iteration at clock reading [now] that observes the tip [tip], one
    request and one response while polling, and finds every block empty. *)
Definition quietIteration (now tip : Z) : IterEnv :=
  {| loopNow := now;
     getBlockNumber := Js.resolveAt 1 tip;
     hooksWhilePolling := [Preflight; Process now (now + 5)];
     hooksWhileWaiting := [];
     provider := fun _ => emptyBlockAt 2 |}.

Definition config (start : option Z) (finish target : option Z) (batch : Z)
  : TestConfig.t :=
  {| TestConfig.startTimeMs := 0;
     TestConfig.startBlockNumber := start;
     TestConfig.finishBlockNumber := finish;
     TestConfig.targetRunningTimeMs := target;
     TestConfig.rpcUrl := "https://rpc.example/";
     TestConfig.batchSize := batch |}.

(** A run that observes the tip 1000, then 998, and is stopped by its time
    bound at the third iteration. *)
Definition tipDecreases : RunEnv :=
  {| startPoll := Js.resolveAt 0 900;
     hooksAtStart := [];
     iterEnv := fun k =>
       match k with
       | O => quietIteration 0 1000
       | S O => quietIteration 10 998
       | _ => quietIteration 2000 998
       end;
     returnNow := 2001 |}.

(** Pointer 10, tip 12: block 11 is fetched at instant 2 and its three
    receipt requests time out at instant 12; block 12 is not there yet,
    which the node says at instant 3. *)
Definition mixedBatch : IterEnv :=
  {| loopNow := 0;
     getBlockNumber := Js.resolveAt 1 12;
     hooksWhilePolling := [Preflight; Process 0 5];
     hooksWhileWaiting := [Preflight; Preflight; Process 6 9; Process 6 11];
     provider := fun b => if b =? 11 then timedOutReceiptsAt 2 else absentBlockAt 3 |}.

(** One block whose receipt requests all time out: two responses reach
    [processFunc] (the tip and the block), the three receipt requests are
    sent but never answered. *)
Definition receiptsTimeOut : RunEnv :=
  {| startPoll := Js.resolveAt 0 10;
     hooksAtStart := [];
     iterEnv := fun _ =>
       {| loopNow := 0;
          getBlockNumber := Js.resolveAt 1 11;
          hooksWhilePolling := [Preflight; Process 0 5];
          hooksWhileWaiting :=
            [Preflight; Process 6 9; Preflight; Preflight; Preflight];
          provider := fun _ => timedOutReceiptsAt 2 |};
     returnNow := 10020 |}.

(** Blocks 100 to 105 in batches of 3, every poll finding the tip at 1000
    and every block empty. *)
Definition sixBlocks : RunEnv :=
  {| startPoll := Js.resolveAt 0 100;
     hooksAtStart := [];
     iterEnv := fun _ => quietIteration 0 1000;
     returnNow := 60 |}.

(** An iteration whose poll of the tip times out. *)
Definition failingPoll : IterEnv :=
  {| loopNow := 0;
     getBlockNumber := Js.rejectAt 1 (Js.Error_ "request timeout");
     hooksWhilePolling := [Preflight];
     hooksWhileWaiting := [];
     provider := fun _ => emptyBlockAt 2 |}.

(** Pointer 10, tip 11: block 11 holds three transactions whose receipt
    requests all time out. *)
Definition receiptsTimeOutIteration : IterEnv := iterEnv receiptsTimeOut 0.

(** A Solana run: latest slot 100, one minute back (150 slots, clamped at
    slot 0), bulks of 10; the request of every slot ending in 3 fails. *)
Definition solanaRun (bulk minutes : Solana.Num) : Solana.RunEnv :=
  {| Solana.BULK_SIZE := bulk;
     Solana.MINUTES_AGO := minutes;
     Solana.runStartNow := 1700000000000;
     Solana.runEndNow := 1700000009000;
     Solana.getLatestSlot := Js.resolveAt 1 100;
     Solana.bulkEnv := fun _ =>
       {| Solana.getBlockWithAxios := fun slot =>
            if slot mod 10 =? 3
            then Js.rejectAt 3 (Js.Error_ "Request failed with status code 429")
            else Js.resolveAt 2 tt;
          Solana.startNow := fun slot => 1700000000000 + slot;
          Solana.endNow := fun slot => 1700000000040 + slot |} |}.

(* ================================================================== *)
(** * Properties *)

(** ** The promise combinators *)

Module JsFacts.
Import Js.

Lemma lastSettled_base A (t0 : nat) (ps : list (Promise A)) :
  (t0 <= lastSettled t0 ps)%nat.
Proof. induction ps as [|p ps IH]; simpl; lia. Qed.

Lemma lastSettled_upper A (t0 : nat) (ps : list (Promise A)) (p : Promise A) :
  In p ps -> (settledAt p <= lastSettled t0 ps)%nat.
Proof.
  induction ps as [|q ps IH]; simpl; [tauto|].
  intros [->|Hin]; [lia|]. specialize (IH Hin). lia.
Qed.

(** No rejection is found exactly when every promise fulfilled. *)
Lemma firstRejection_None A (ps : list (Promise A)) :
  firstRejection ps = None <->
  (forall p, In p ps -> isRejected (outcome p) = false).
Proof.
  induction ps as [|q ps IH]; simpl.
  - split; [intros _ p []|reflexivity].
  - destruct (outcome q) eqn:Hq.
    + rewrite IH. split.
      * intros H p [<-|Hin]; [now rewrite Hq|now apply H].
      * intros H p Hin. apply H. now right.
    + split.
      * destruct (firstRejection ps) as [[t e']|];
          [destruct (settledAt q <=? t)%nat|]; discriminate.
      * intros H. specialize (H q (or_introl eq_refl)).
        rewrite Hq in H. discriminate.
Qed.

(** The rejection found is one of the promises', and no rejection
    settles before it. *)
Lemma firstRejection_Some A (ps : list (Promise A)) t e :
  firstRejection ps = Some (t, e) ->
  (exists p, In p ps /\ settledAt p = t /\ outcome p = Rejected e) /\
  (forall p, In p ps -> isRejected (outcome p) = true -> (t <= settledAt p)%nat).
Proof.
  revert t e. induction ps as [|q ps IH]; simpl; [discriminate|].
  intros t e. destruct (outcome q) eqn:Hq.
  - intros H. destruct (IH _ _ H) as [(p & Hin & Ht & Hp) Hmin]. split.
    + exists p. auto.
    + intros p' [<-|Hin'] Hr; [rewrite Hq in Hr; discriminate|auto].
  - destruct (firstRejection ps) as [[t' e']|] eqn:Hrest.
    + destruct (IH _ _ eq_refl) as [(p & Hin & Ht & Hp) Hmin].
      destruct (settledAt q <=? t')%nat eqn:Hle; intros [= <- <-].
      * apply Nat.leb_le in Hle. split; [exists q; auto|].
        intros p' [<-|Hin'] Hr; [lia|]. specialize (Hmin _ Hin' Hr). lia.
      * apply Nat.leb_gt in Hle. split; [exists p; auto|].
        intros p' [<-|Hin'] Hr; [lia|auto].
    + intros [= <- <-]. split; [exists q; auto|].
      intros p' [<-|Hin'] Hr; [lia|].
      apply firstRejection_None with (p := p') in Hrest; [congruence|assumption].
Qed.

Lemma values_length A (ps : list (Promise A)) :
  (forall p, In p ps -> isRejected (outcome p) = false) ->
  List.length (values ps) = List.length ps.
Proof.
  induction ps as [|q ps IH]; simpl; [reflexivity|]. intros H.
  destruct (outcome q) eqn:Hq.
  - simpl. f_equal. apply IH. intros p Hin. apply H. now right.
  - specialize (H q (or_introl eq_refl)). rewrite Hq in H. discriminate.
Qed.

Lemma values_fulfilled A (ps : list (Promise A)) :
  (forall p, In p ps -> isRejected (outcome p) = false) ->
  map (@outcome A) ps = map Fulfilled (values ps).
Proof.
  induction ps as [|q ps IH]; simpl; [reflexivity|]. intros H.
  destruct (outcome q) eqn:Hq.
  - simpl. f_equal. apply IH. intros p Hin. apply H. now right.
  - specialize (H q (or_introl eq_refl)). rewrite Hq in H. discriminate.
Qed.

(** [Promise.all] either rejects or fulfils. *)
Lemma all_rejected A t0 (ps : list (Promise A)) e :
  outcome (all t0 ps) = Rejected e ->
  firstRejection ps = Some (settledAt (all t0 ps), e).
Proof.
  unfold all. destruct (firstRejection ps) as [[t e']|]; simpl.
  - now intros [= ->].
  - discriminate.
Qed.

Lemma all_fulfilled A t0 (ps : list (Promise A)) vs :
  outcome (all t0 ps) = Fulfilled vs ->
  firstRejection ps = None /\ vs = values ps /\
  settledAt (all t0 ps) = lastSettled t0 ps.
Proof.
  unfold all. destruct (firstRejection ps) as [[t e']|]; simpl.
  - discriminate.
  - now intros [= <-].
Qed.

End JsFacts.

(** ** processBlock *)

Lemma catchRethrow_outcome A (p : Js.Promise A) :
  Js.outcome (Js.catchRethrow p) = Js.outcome p.
Proof. unfold Js.catchRethrow. now destruct (Js.outcome p). Qed.

Lemma catchRethrow_settledAt A (p : Js.Promise A) :
  Js.settledAt (Js.catchRethrow p) = Js.settledAt p.
Proof. unfold Js.catchRethrow. now destruct (Js.outcome p). Qed.

Lemma receiptPromises_length provider i txs :
  List.length (receiptPromises provider i txs) = List.length txs.
Proof. revert i. induction txs; simpl; intros; [reflexivity|now rewrite IHtxs]. Qed.

Lemma collectFails_length provider i txs :
  List.length (collectFails provider i
            (map (@Js.outcome _) (receiptPromises provider i txs)))
  = rejectedReceipts provider i txs.
Proof.
  revert i. induction txs as [|tx txs IH]; simpl; intros i; [reflexivity|].
  rewrite catchRethrow_outcome.
  destruct (Js.outcome (getTransactionReceipt provider i tx)); simpl;
    now rewrite IH.
Qed.

Lemma rejectedReceipts_le provider i txs :
  (rejectedReceipts provider i txs <= List.length txs)%nat.
Proof.
  revert i. induction txs as [|tx txs IH]; simpl; intros i; [lia|].
  specialize (IH (S i)).
  destruct (Js.isRejected _); lia.
Qed.

(** Every record comes from one rejected receipt request: it carries that
    rejection's text and the clock reading taken at its position. *)
Lemma collectFails_origin provider i txs f :
  In f (collectFails provider i
          (map (@Js.outcome _) (receiptPromises provider i txs))) ->
  exists j tx err,
    nth_error txs j = Some tx /\
    Js.outcome (getTransactionReceipt provider (i + j) tx) = Js.Rejected err /\
    reason f = Js.toString err /\
    timestamp f = failureNow provider (i + j).
Proof.
  revert i. induction txs as [|tx txs IH]; simpl; intros i; [tauto|].
  rewrite catchRethrow_outcome.
  destruct (Js.outcome (getTransactionReceipt provider i tx)) as [v|err] eqn:Hrc.
  - intros Hin. destruct (IH _ Hin) as (j & tx' & err & Hnth & Hout & Hr & Ht).
    exists (S j), tx', err. rewrite <- plus_n_Sm. simpl in *. auto.
  - intros [<-|Hin].
    + exists O, tx, err. rewrite Nat.add_0_r. simpl. auto.
    + destruct (IH _ Hin) as (j & tx' & err' & Hnth & Hout & Hr & Ht).
      exists (S j), tx', err'. rewrite <- plus_n_Sm. simpl in *. auto.
Qed.

(** How [processBlock] settles, by the answer to the block fetch. *)
Lemma processBlock_outcome idx cfg provider blockNumber :
  Js.outcome (processBlock idx cfg provider blockNumber) =
  match Js.outcome (getBlock provider) with
  | Js.Rejected err => Js.Rejected err
  | Js.Fulfilled None =>
      Js.Rejected (Js.Error_ ("Can't find " ++ Js.show blockNumber ++ " block")%string)
  | Js.Fulfilled (Some block) =>
      Js.Fulfilled
        (collectFails provider 0
           (map (@Js.outcome _) (receiptPromises provider 0 (transactions block))))
  end.
Proof.
  unfold processBlock.
  destruct (Js.outcome (getBlock provider)) as [[block|]|err]; reflexivity.
Qed.

(** C4, counterexample: when the block fetch itself is rejected (here by a
    timeout), [processBlock] raises although no block was reported absent. *)
Lemma processBlock_raises_on_rejected_fetch :
  ~ raisesOnlyWhenBlockAbsent fetchTimesOut.
Proof.
  intros H.
  specialize (H 0 (TestConfig.Build_t 0 None None None "" 1) 7 eq_refl).
  discriminate H.
Qed.

(** C4, amended: a block of k transactions of which m receipt requests
    reject makes [processBlock] return, without raising, exactly m
    failures (m <= k), each with the text of one rejection and the clock
    reading taken when it was recorded; [processBlock] raises exactly when
    the block fetch fails: it answers [null], or it is itself rejected. *)
Theorem processBlock_failures idx cfg provider blockNumber :
  match Js.outcome (getBlock provider) with
  | Js.Fulfilled (Some block) =>
      exists fails,
        Js.outcome (processBlock idx cfg provider blockNumber) = Js.Fulfilled fails /\
        List.length fails = rejectedReceipts provider 0 (transactions block) /\
        (List.length fails <= List.length (transactions block))%nat /\
        (forall f, In f fails ->
           exists j tx err,
             nth_error (transactions block) j = Some tx /\
             Js.outcome (getTransactionReceipt provider j tx) = Js.Rejected err /\
             reason f = Js.toString err /\
             timestamp f = failureNow provider j)
  | Js.Fulfilled None =>
      Js.outcome (processBlock idx cfg provider blockNumber) =
      Js.Rejected (Js.Error_ ("Can't find " ++ Js.show blockNumber ++ " block")%string)
  | Js.Rejected err =>
      Js.outcome (processBlock idx cfg provider blockNumber) = Js.Rejected err
  end.
Proof.
  rewrite processBlock_outcome.
  destruct (Js.outcome (getBlock provider)) as [[block|]|err]; try reflexivity.
  eexists. split; [reflexivity|].
  rewrite collectFails_length. split; [reflexivity|].
  split; [apply rejectedReceipts_le|].
  intros f Hin. apply collectFails_origin in Hin. exact Hin.
Qed.

(** ** The counters *)

(** [retryFunc] declines and leaves the counters alone. *)
Lemma retryFunc_declines statusCode attempt st :
  retryFunc statusCode attempt st = (false, st).
Proof. reflexivity. Qed.

Lemma evolves_refl st : evolves st st.
Proof. unfold evolves, countersLe. intuition lia. Qed.

Lemma evolves_trans a b c : evolves a b -> evolves b c -> evolves a c.
Proof.
  unfold evolves, countersLe. intros (Hab & Iab & Rab) (Hbc & Ibc & Rbc).
  intuition (lia || congruence).
Qed.

#[local] Ltac unfold_counters :=
  unfold evolves, countersLe, countersOrdered, runHook, preflightFunc,
    processFunc, retryFunc, countFailure; simpl.

Lemma runHook_evolves h st : evolves st (runHook h st).
Proof. destruct h; unfold_counters; intuition lia. Qed.

Lemma runHooks_evolves hs st : evolves st (runHooks hs st).
Proof.
  unfold runHooks. revert st. induction hs as [|h hs IH]; simpl; intros st.
  - apply evolves_refl.
  - eapply evolves_trans; [apply runHook_evolves|apply IH].
Qed.

Lemma countFailure_evolves f st : evolves st (countFailure f st).
Proof.
  unfold countFailure. destruct (Js.includes (reason f) "timeout");
    unfold_counters; intuition lia.
Qed.

Lemma countBlock_evolves fails st b :
  evolves st (fst (countBlock fails (st, b))).
Proof.
  revert st b. induction fails as [|f fails IH]; simpl; intros st b.
  - apply evolves_refl.
  - eapply evolves_trans; [apply countFailure_evolves|apply IH].
Qed.

Lemma countResults_evolves results st b :
  evolves st (fst (countResults results (st, b))).
Proof.
  revert st b. induction results as [|fails results IH]; simpl; intros st b.
  - apply evolves_refl.
  - destruct (countBlock fails (st, b)) as [st' b'] eqn:Hcb.
    eapply evolves_trans; [|apply IH].
    change st' with (fst (st', b')). rewrite <- Hcb. apply countBlock_evolves.
Qed.

Lemma addCurrBlockNumber_evolves n st :
  evolves st (Scheduler.addCurrBlockNumber n st).
Proof. unfold_counters. intuition lia. Qed.

(** The hooks touch neither the pointer nor the failure counters. *)
Lemma runHooks_frame hs st :
  Scheduler.currBlockNumber (runHooks hs st) = Scheduler.currBlockNumber st /\
  Scheduler.failCalls (runHooks hs st) = Scheduler.failCalls st /\
  Scheduler.timeoutCalls (runHooks hs st) = Scheduler.timeoutCalls st.
Proof.
  unfold runHooks. revert st. induction hs as [|h hs IH]; simpl; intros st.
  - auto.
  - destruct (IH (runHook h st)) as (-> & -> & ->). now destruct h.
Qed.

(** Counting leaves the pointer alone; it raises [isFailed] exactly when
    there is a failure to count. *)
Lemma countBlock_frame fails st b :
  Scheduler.currBlockNumber (fst (countBlock fails (st, b)))
  = Scheduler.currBlockNumber st /\
  snd (countBlock fails (st, b)) = (b || negb (Nat.eqb (List.length fails) 0))%bool.
Proof.
  revert st b. induction fails as [|f fails IH]; simpl; intros st b.
  - now rewrite orb_false_r.
  - destruct (IH (countFailure f st) true) as (-> & ->). simpl.
    rewrite orb_true_r. split; [|reflexivity].
    unfold countFailure. now destruct (Js.includes _ _).
Qed.

Lemma countResults_frame results st b :
  Scheduler.currBlockNumber (fst (countResults results (st, b)))
  = Scheduler.currBlockNumber st /\
  snd (countResults results (st, b))
  = (b || negb (Nat.eqb (List.length (List.concat results)) 0))%bool.
Proof.
  revert st b. induction results as [|fails results IH]; simpl; intros st b.
  - now rewrite orb_false_r.
  - destruct (countBlock fails (st, b)) as [st' b'] eqn:Hcb.
    destruct (countBlock_frame fails st b) as (Hc & Hb).
    rewrite Hcb in Hc, Hb. simpl in Hc, Hb.
    destruct (IH st' b') as (-> & ->). split; [assumption|].
    subst b'. rewrite length_app.
    destruct (List.length fails), (List.length (List.concat results)), b; reflexivity.
Qed.

(** Counting adds one to [failCalls] for every failure. *)
Lemma countBlock_failCalls fails st b :
  Scheduler.failCalls (fst (countBlock fails (st, b)))
  = Scheduler.failCalls st + Z.of_nat (List.length fails).
Proof.
  revert st b. induction fails as [|f fails IH]; simpl List.length; intros st b.
  - simpl. lia.
  - simpl countBlock. rewrite IH. unfold countFailure.
    destruct (Js.includes _ _); simpl; lia.
Qed.

Lemma countResults_failCalls results st b :
  Scheduler.failCalls (fst (countResults results (st, b)))
  = Scheduler.failCalls st + Z.of_nat (List.length (List.concat results)).
Proof.
  revert st b. induction results as [|fails results IH]; intros st b.
  - simpl. lia.
  - simpl. destruct (countBlock fails (st, b)) as [st' b'] eqn:Hcb.
    rewrite IH, length_app.
    pose proof (countBlock_failCalls fails st b) as H. rewrite Hcb in H.
    simpl in H. lia.
Qed.

(** ** One iteration *)

Lemma pick_app A (f : Event -> option A) evs evs' :
  pick f (evs ++ evs') = pick f evs ++ pick f evs'.
Proof.
  induction evs as [|e evs IH]; simpl; [reflexivity|].
  destruct (f e); simpl; now rewrite IH.
Qed.

Lemma pick_map_Some A B (f : Event -> option A) (g : B -> Event) (h : B -> A) l :
  (forall x, f (g x) = Some (h x)) -> pick f (map g l) = map h l.
Proof.
  intros H. induction l as [|x l IH]; simpl; [reflexivity|].
  now rewrite H, IH.
Qed.

Lemma pick_map_None A B (f : Event -> option A) (g : B -> Event) l :
  (forall x, f (g x) = None) -> pick f (map g l) = [].
Proof.
  intros H. induction l as [|x l IH]; simpl; [reflexivity|].
  now rewrite H, IH.
Qed.

(** Normalises a selection over the events of a dispatch. *)
#[local] Ltac pick_events :=
  unfold invokedBlocks, joinInstants, sleeps, loggedFailures;
  repeat first
    [ rewrite pick_app
    | rewrite (pick_map_Some _ _ (fun x => x)) by reflexivity
    | rewrite pick_map_None by reflexivity
    | progress simpl
    | match goal with
      | |- context [pick _ (if ?c then _ else _)] => destruct c
      end ];
  rewrite ?map_id, ?app_nil_r.

Lemma batchBlocks_length curr width :
  List.length (batchBlocks curr width) = Z.to_nat width.
Proof. unfold batchBlocks. now rewrite length_map, length_seq. Qed.

Lemma map_seq_consecutive (f : nat -> Z) (lo : Z) s n :
  (forall i, f i = lo + Z.of_nat i) ->
  map f (seq s n) = consecutive (lo + Z.of_nat s) n.
Proof.
  intros Hf. revert s. induction n as [|n IH]; simpl; intros s; [reflexivity|].
  rewrite Hf, IH. do 2 f_equal. lia.
Qed.

(** The later revision dispatches the blocks after the pointer. *)
Lemma batchBlocks_consecutive curr width :
  batchBlocks curr width = consecutive (curr + 1) (Z.to_nat width).
Proof.
  unfold batchBlocks.
  rewrite (map_seq_consecutive _ (curr + 1)); [f_equal; lia|intros; lia].
Qed.

(** The earlier revision dispatches from the pointer itself. *)
Lemma earlier_batchBlocks_consecutive curr width :
  Earlier.batchBlocks curr width = consecutive curr (Z.to_nat width).
Proof.
  unfold Earlier.batchBlocks.
  rewrite (map_seq_consecutive _ curr); [f_equal; lia|intros; lia].
Qed.

Lemma consecutive_In lo len b :
  In b (consecutive lo len) <-> lo <= b < lo + Z.of_nat len.
Proof.
  revert lo. induction len as [|len IH]; intros lo; simpl consecutive.
  - simpl. lia.
  - simpl In. rewrite IH. lia.
Qed.

Lemma keepsRunning_checks cfg env curr :
  keepsRunning cfg env curr ->
  match TestConfig.finishBlockNumber cfg with
  | Some finishBlockNumber => curr >? finishBlockNumber
  | None => false
  end = false /\
  match TestConfig.targetRunningTimeMs cfg with
  | Some target => loopNow env - TestConfig.startTimeMs cfg >=? target
  | None => false
  end = false.
Proof.
  unfold keepsRunning. intros [Hf Ht]. split.
  - destruct (TestConfig.finishBlockNumber cfg); [|reflexivity].
    rewrite Z.gtb_ltb. apply Z.ltb_ge. exact Hf.
  - destruct (TestConfig.targetRunningTimeMs cfg); [|reflexivity].
    rewrite Z.geb_leb. apply Z.leb_gt. exact Ht.
Qed.

(** An iteration that reaches the dispatch is the dispatch, after the hooks
    that ran during the poll. *)
Lemma iteration_dispatching idx cfg env st latest :
  dispatching cfg env (Scheduler.currBlockNumber st) latest ->
  iteration idx cfg env st
  = dispatch idx cfg env (runHooks (hooksWhilePolling env) st) latest.
Proof.
  intros (Hrun & Hpoll & Hlt). unfold iteration.
  destruct (keepsRunning_checks Hrun) as [-> ->]. rewrite Hpoll. simpl.
  rewrite Z.geb_leb. replace (latest <=? _) with false; [reflexivity|].
  symmetry. apply Z.leb_gt. exact Hlt.
Qed.

Lemma earlier_iteration_dispatching idx cfg env st latest :
  dispatching cfg env (Scheduler.currBlockNumber st) latest ->
  Earlier.iteration idx cfg env st
  = Earlier.dispatch idx cfg env (Earlier.runHooks (hooksWhilePolling env) st) latest.
Proof.
  intros (Hrun & Hpoll & Hlt). unfold Earlier.iteration.
  destruct (keepsRunning_checks Hrun) as [-> ->]. rewrite Hpoll.
  rewrite Z.geb_leb. replace (latest <=? _) with false; [reflexivity|].
  symmetry. apply Z.leb_gt. exact Hlt.
Qed.

Lemma earlier_runHooks_curr hs st :
  Scheduler.currBlockNumber (Earlier.runHooks hs st) = Scheduler.currBlockNumber st.
Proof.
  unfold Earlier.runHooks. revert st. induction hs as [|h hs IH]; simpl; intros st.
  - reflexivity.
  - rewrite IH. now destruct h.
Qed.

(** The invocations of a dispatch are those of [batchBlocks], whatever
    comes of them. *)
Lemma dispatch_invokedBlocks idx cfg env st latest :
  invokedBlocks (snd (dispatch idx cfg env st latest))
  = batchBlocks (Scheduler.currBlockNumber st)
      (batchWidth cfg (Scheduler.currBlockNumber st) latest).
Proof.
  unfold dispatch, batchWidth.
  destruct (Js.outcome (Js.all _ _)) as [results|err].
  - destruct (countResults _ _) as [st' [|]]; simpl; now pick_events.
  - simpl. now pick_events.
Qed.

Lemma earlier_dispatch_invokedBlocks idx cfg env st latest :
  invokedBlocks (snd (Earlier.dispatch idx cfg env st latest))
  = Earlier.batchBlocks (Scheduler.currBlockNumber st)
      (batchWidth cfg (Scheduler.currBlockNumber st) latest).
Proof.
  unfold Earlier.dispatch, batchWidth.
  destruct (Js.outcome (Js.all _ _)) as [results|err].
  - destruct (Earlier.countResults _ _) as [st' [|]]; simpl; now pick_events.
  - simpl. now pick_events.
Qed.

(** Every way an iteration can go.  The rollback exit of line 384 is not
    among them: [prevLatestBlockNumber] is declared inside the loop body
    (line 377), so the test of line 382 always reads 0. *)
Lemma iteration_cases idx cfg env st :
  let curr := Scheduler.currBlockNumber st in
  let polled := runHooks (hooksWhilePolling env) st in
  iteration idx cfg env st = (Break, st, [StopFinish]) \/
  iteration idx cfg env st = (Break, st, [StopTime]) \/
  (exists err,
     keepsRunning cfg env curr /\
     Js.outcome (getBlockNumber env) = Js.Rejected err /\
     iteration idx cfg env st = (Continue, polled, [Caught (Js.toString err)])) \/
  (exists latest,
     keepsRunning cfg env curr /\
     Js.outcome (getBlockNumber env) = Js.Fulfilled latest /\
     latest <= curr /\
     iteration idx cfg env st
     = (Continue, runHooks (hooksWhileWaiting env) polled, [Sleep 200])) \/
  (exists latest,
     dispatching cfg env curr latest /\
     iteration idx cfg env st = dispatch idx cfg env polled latest).
Proof.
  intros curr polled. unfold iteration. fold curr. fold polled.
  destruct (match TestConfig.finishBlockNumber cfg with
            | Some f => curr >? f | None => false end) eqn:Hfin; [now left|].
  destruct (match TestConfig.targetRunningTimeMs cfg with
            | Some t => loopNow env - TestConfig.startTimeMs cfg >=? t
            | None => false end) eqn:Htime; [now right; left|].
  assert (Hrun : keepsRunning cfg env curr).
  { unfold keepsRunning. split.
    - destruct (TestConfig.finishBlockNumber cfg); [|exact I].
      rewrite Z.gtb_ltb in Hfin. now apply Z.ltb_ge.
    - destruct (TestConfig.targetRunningTimeMs cfg); [|exact I].
      rewrite Z.geb_leb in Htime. now apply Z.leb_gt. }
  right; right.
  destruct (Js.outcome (getBlockNumber env)) as [latest|err] eqn:Hpoll.
  - right. simpl. destruct (curr >=? latest) eqn:Hge; rewrite Z.geb_leb in Hge.
    + left. exists latest. apply Z.leb_le in Hge. auto.
    + right. exists latest. apply Z.leb_gt in Hge.
      unfold dispatching. auto.
  - left. exists err. auto.
Qed.

Lemma batchPromises_In idx cfg env curr width p :
  In p (batchPromises idx cfg env curr width) <->
  exists b, In b (batchBlocks curr width) /\
            p = processBlock idx cfg (provider env b) b.
Proof.
  unfold batchPromises. rewrite in_map_iff. split; intros (b & H1 & H2); eauto.
Qed.

(** A batch in which an invocation raises: the join is rejected with the
    rejection that settles first, the loop catches it, nothing is counted
    and the pointer stays. *)
Lemma dispatch_someRaises idx cfg env st latest :
  let curr := Scheduler.currBlockNumber st in
  let width := batchWidth cfg curr latest in
  someRaises idx cfg env (batchBlocks curr width) ->
  exists t err,
    Js.firstRejection (batchPromises idx cfg env curr width) = Some (t, err) /\
    dispatch idx cfg env st latest
    = (Continue, runHooks (hooksWhileWaiting env) st,
       map Invoke (batchBlocks curr width) ++ [Joined t; Caught (Js.toString err)]).
Proof.
  intros curr width (b & Hin & Hrej). unfold dispatch, Js.all.
  fold curr. fold (batchWidth cfg curr latest). fold width.
  destruct (Js.firstRejection (batchPromises idx cfg env curr width))
    as [[t err]|] eqn:Hfirst.
  - exists t, err. split; reflexivity.
  - rewrite JsFacts.firstRejection_None in Hfirst.
    rewrite Hfirst in Hrej; [discriminate|].
    apply batchPromises_In. eauto.
Qed.

(** A batch in which every invocation returns: the join fulfils once all
    have settled, the failures are counted and the pointer moves by the
    width. *)
Lemma dispatch_allReturn idx cfg env st latest :
  let curr := Scheduler.currBlockNumber st in
  let width := batchWidth cfg curr latest in
  let promises := batchPromises idx cfg env curr width in
  let results := Js.values promises in
  let counted := countResults results (runHooks (hooksWhileWaiting env) st, false) in
  allReturn idx cfg env (batchBlocks curr width) ->
  Js.firstRejection promises = None /\
  dispatch idx cfg env st latest
  = (Continue, Scheduler.addCurrBlockNumber width (fst counted),
     map Invoke (batchBlocks curr width)
       ++ [Joined (Js.lastSettled (Js.settledAt (getBlockNumber env)) promises)]
       ++ map FailureLogged (List.concat results)
       ++ (if snd counted then [FailedButSkip] else [])
       ++ [BatchFinished curr width]).
Proof.
  intros curr width promises results counted Hall.
  assert (Hnone : Js.firstRejection promises = None).
  { apply JsFacts.firstRejection_None. intros p Hp.
    apply batchPromises_In in Hp. destruct Hp as (b & Hb & ->). now apply Hall. }
  split; [exact Hnone|].
  unfold dispatch, Js.all.
  fold curr. fold (batchWidth cfg curr latest). fold width. fold promises.
  rewrite Hnone. simpl. fold results. fold counted.
  now destruct counted.
Qed.

(** The invocations of a batch all return, or one of them raises. *)
Lemma allReturn_or_someRaises idx cfg env blocks :
  allReturn idx cfg env blocks \/ someRaises idx cfg env blocks.
Proof.
  unfold allReturn, someRaises. induction blocks as [|b blocks IH].
  - left. intros b [].
  - destruct IH as [IH|(b' & Hin & Hrej)].
    + destruct (Js.isRejected (Js.outcome (processBlock idx cfg (provider env b) b)))
        eqn:Hb.
      * right. exists b. split; [now left|exact Hb].
      * left. intros b' [<-|Hin]; auto.
    + right. exists b'. split; [now right|exact Hrej].
Qed.

(** The state of a dispatch evolves from the state it started in. *)
Lemma dispatch_evolves idx cfg env st latest :
  evolves st (snd (fst (dispatch idx cfg env st latest))).
Proof.
  unfold dispatch.
  destruct (Js.outcome (Js.all _ _)) as [results|err].
  - destruct (countResults results _) as [st' isFailed] eqn:Hc. simpl.
    eapply evolves_trans; [apply runHooks_evolves|].
    eapply evolves_trans; [|apply addCurrBlockNumber_evolves].
    change st' with (fst (st', isFailed)). rewrite <- Hc.
    apply countResults_evolves.
  - simpl. apply runHooks_evolves.
Qed.

Lemma iteration_evolves idx cfg env st :
  evolves st (snd (fst (iteration idx cfg env st))).
Proof.
  destruct (iteration_cases idx cfg env st)
    as [H|[H|[(err & _ & _ & H)|[(latest & _ & _ & _ & H)|(latest & _ & H)]]]];
    rewrite H; simpl.
  - apply evolves_refl.
  - apply evolves_refl.
  - apply runHooks_evolves.
  - eapply evolves_trans; apply runHooks_evolves.
  - eapply evolves_trans; [apply runHooks_evolves|apply dispatch_evolves].
Qed.

Lemma loop_evolves fuel idx cfg envs k st :
  evolves st (snd (fst (loop fuel idx cfg envs k st))).
Proof.
  revert k st. induction fuel as [|fuel IH]; intros k st; simpl.
  - apply evolves_refl.
  - pose proof (iteration_evolves idx cfg (envs k) st) as Hit.
    destruct (iteration idx cfg (envs k) st) as [[flow st'] evs].
    simpl in Hit. destruct flow; simpl; try exact Hit.
    specialize (IH (S k) st').
    destruct (loop fuel idx cfg envs (S k) st') as [[flow' st''] evs'].
    simpl in *. eapply evolves_trans; eassumption.
Qed.

Lemma loop_S fuel idx cfg envs k st :
  loop (S fuel) idx cfg envs k st
  = match iteration idx cfg (envs k) st with
    | (Continue, st', evs) =>
        let '(flow, st'', evs') := loop fuel idx cfg envs (S k) st' in
        (flow, st'', evs ++ evs')
    | stopped => stopped
    end.
Proof. reflexivity. Qed.

(** One more iteration of fuel only extends the run. *)
Lemma loop_step_evolves fuel idx cfg envs k st :
  evolves (snd (fst (loop fuel idx cfg envs k st)))
          (snd (fst (loop (S fuel) idx cfg envs k st))).
Proof.
  revert k st. induction fuel as [|fuel IH]; intros k st.
  - apply loop_evolves.
  - rewrite (loop_S (S fuel)), (loop_S fuel).
    destruct (iteration idx cfg (envs k) st) as [[[| |code] st'] evs];
      try apply evolves_refl.
    specialize (IH (S k) st').
    destruct (loop fuel idx cfg envs (S k) st') as [[f1 s1] e1].
    destruct (loop (S fuel) idx cfg envs (S k) st') as [[f2 s2] e2].
    exact IH.
Qed.

(** ** The rollback check (C1) *)

Lemma dispatch_flow idx cfg env st latest :
  fst (fst (dispatch idx cfg env st latest)) = Continue.
Proof.
  unfold dispatch. destruct (Js.outcome (Js.all _ _)); [|reflexivity].
  now destruct (countResults _ _).
Qed.

(** No iteration takes the rollback exit, whatever the tips observed. *)
Lemma iteration_never_exits idx cfg env st code :
  fst (fst (iteration idx cfg env st)) <> Exit code.
Proof.
  destruct (iteration_cases idx cfg env st)
    as [H|[H|[(err & _ & _ & H)|[(latest & _ & _ & _ & H)|(latest & _ & H)]]]];
    rewrite H; try discriminate.
  rewrite dispatch_flow. discriminate.
Qed.

Lemma loop_never_exits fuel idx cfg envs k st code :
  fst (fst (loop fuel idx cfg envs k st)) <> Exit code.
Proof.
  revert k st. induction fuel as [|fuel IH]; intros k st; [discriminate|].
  rewrite loop_S.
  pose proof (iteration_never_exits idx cfg (envs k) st) as Hit.
  destruct (iteration idx cfg (envs k) st) as [[[| |code'] st'] evs]; simpl in *.
  - specialize (IH (S k) st').
    now destruct (loop fuel idx cfg envs (S k) st') as [[f s] e].
  - discriminate.
  - now destruct (Hit code').
Qed.

(** C1, the code at the failing input: with the pointer at 900 and batches
    of 10, the tip is observed at 1000 and then at 998.  The loop does not
    leave by the rollback path: it dispatches the second batch, blocks 911
    to 920, after the decrease, advances past it, and returns normally when
    its time bound is reached. *)
Theorem tip_decrease_goes_unnoticed :
  exists r evs,
    startScheduler 3 0 (config (Some 900) None (Some 1000) 10) tipDecreases
    = Some (Returned r, evs) /\
    invokedBlocks evs = consecutive 901 10 ++ consecutive 911 10 /\
    List.length (joinInstants evs) = 2%nat /\
    TestResult.finishBlockNumber r = 919.
Proof. do 2 eexists. split; [reflexivity|]. repeat split. Qed.

(** ** The blocks of a batch (C2) *)

(** C2, counterexample: pointer 10, tip 20, batches of 3.  The loop calls
    [processBlock] for 11, 12 and 13, not for 10, 11 and 12. *)
Lemma batch_does_not_start_at_pointer :
  ~ dispatchesFromPointer 0 (config (Some 10) None None 3)
      (quietIteration 0 20) (Scheduler.init 10).
Proof.
  intros H. specialize (H 20).
  assert (Hd : dispatching (config (Some 10) None None 3) (quietIteration 0 20)
                 (Scheduler.currBlockNumber (Scheduler.init 10)) 20).
  { unfold dispatching, keepsRunning. simpl. repeat split. }
  specialize (H Hd). vm_compute in H. discriminate H.
Qed.

(** C2, amended: in every dispatching step, with width = min(batch size,
    tip - pointer), the loop calls the Block Processor once per block
    number of the half-open interval [pointer+1, pointer+1+width): the
    lowest block dispatched is the one after the pointer, and exactly
    width consecutive numbers are dispatched.  (The earlier revision of the
    loop, lines 136-140, dispatches [pointer, pointer+width).) *)
Theorem batch_is_the_blocks_after_the_pointer idx cfg env st latest :
  dispatching cfg env (Scheduler.currBlockNumber st) latest ->
  let curr := Scheduler.currBlockNumber st in
  let width := batchWidth cfg curr latest in
  invokedBlocks (snd (iteration idx cfg env st))
  = consecutive (curr + 1) (Z.to_nat width) /\
  (forall b, In b (invokedBlocks (snd (iteration idx cfg env st))) <->
             curr + 1 <= b < curr + 1 + Z.max 0 width) /\
  invokedBlocks (snd (Earlier.iteration idx cfg env st))
  = consecutive curr (Z.to_nat width).
Proof.
  intros Hd curr width.
  assert (Hlater : invokedBlocks (snd (iteration idx cfg env st))
                   = consecutive (curr + 1) (Z.to_nat width)).
  { rewrite (iteration_dispatching idx st Hd), dispatch_invokedBlocks.
    destruct (runHooks_frame (hooksWhilePolling env) st) as (-> & _).
    apply batchBlocks_consecutive. }
  split; [exact Hlater|]. split.
  - intros b. rewrite Hlater, consecutive_In. lia.
  - rewrite (earlier_iteration_dispatching idx st Hd), earlier_dispatch_invokedBlocks.
    rewrite earlier_runHooks_curr. apply earlier_batchBlocks_consecutive.
Qed.

(** Pointer 10, tip 20, batches of 3: blocks 11, 12 and 13. *)
Lemma batch_is_the_blocks_after_the_pointer_witness :
  dispatching (config (Some 10) None None 3) (quietIteration 0 20) 10 20 /\
  invokedBlocks (snd (iteration 0 (config (Some 10) None None 3)
                        (quietIteration 0 20) (Scheduler.init 10)))
  = [11; 12; 13].
Proof.
  assert (Hd : dispatching (config (Some 10) None None 3) (quietIteration 0 20)
                 (Scheduler.currBlockNumber (Scheduler.init 10)) 20).
  { unfold dispatching, keepsRunning. simpl. repeat split. }
  split; [exact Hd|].
  exact (proj1 (batch_is_the_blocks_after_the_pointer 0 (Scheduler.init 10) Hd)).
Defined.

(** ** A batch in which an invocation raises (C10, C6) *)

Lemma mixedBatch_dispatching :
  dispatching (config (Some 10) None None 5) mixedBatch
    (Scheduler.currBlockNumber (Scheduler.init 10)) 12.
Proof. unfold dispatching, keepsRunning. simpl. repeat split. Qed.

Lemma mixedBatch_someRaises :
  someRaises 0 (config (Some 10) None None 5) mixedBatch
    (batchBlocks (Scheduler.currBlockNumber (Scheduler.init 10))
       (batchWidth (config (Some 10) None None 5)
          (Scheduler.currBlockNumber (Scheduler.init 10)) 12)).
Proof. exists 12. split; [right; left; reflexivity|reflexivity]. Qed.

(** The sibling of the raising invocation did return failures. *)
Lemma mixedBatch_sibling_failures :
  exists fails,
    Js.outcome (processBlock 0 (config (Some 10) None None 5)
                  (provider mixedBatch 11) 11) = Js.Fulfilled fails /\
    List.length fails = 3%nat.
Proof. eexists. split; reflexivity. Qed.

(** C10: when an invocation of the batch raises a block-fetch failure, the
    failures returned by the invocations that completed normally are
    dropped: the iteration leaves the failed-call and timeout-call
    counters as they were and counts no failure. *)
Theorem raising_batch_counts_no_failure idx cfg env st latest :
  dispatching cfg env (Scheduler.currBlockNumber st) latest ->
  someRaises idx cfg env
    (batchBlocks (Scheduler.currBlockNumber st)
       (batchWidth cfg (Scheduler.currBlockNumber st) latest)) ->
  let st' := snd (fst (iteration idx cfg env st)) in
  let evs := snd (iteration idx cfg env st) in
  Scheduler.failCalls st' = Scheduler.failCalls st /\
  Scheduler.timeoutCalls st' = Scheduler.timeoutCalls st /\
  loggedFailures evs = [].
Proof.
  intros Hd Hraise. rewrite (iteration_dispatching idx st Hd).
  destruct (runHooks_frame (hooksWhilePolling env) st) as (Hc & Hf & Ht).
  rewrite <- Hc in Hraise.
  destruct (@dispatch_someRaises idx cfg env _ latest Hraise)
    as (t & err & _ & ->). simpl.
  destruct (runHooks_frame (hooksWhileWaiting env)
              (runHooks (hooksWhilePolling env) st)) as (_ & -> & ->).
  rewrite Hf, Ht. repeat split. now pick_events.
Qed.

(** In [mixedBatch] block 12 raises and the three failures of block 11 are
    not counted. *)
Lemma raising_batch_counts_no_failure_witness :
  Scheduler.failCalls
    (snd (fst (iteration 0 (config (Some 10) None None 5) mixedBatch
                 (Scheduler.init 10)))) = 0.
Proof.
  exact (proj1 (@raising_batch_counts_no_failure 0 _ _ (Scheduler.init 10) 12
                  mixedBatch_dispatching mixedBatch_someRaises)).
Defined.

(** C6, counterexample: in [mixedBatch] the loop resumes at instant 3, on
    the rejection of block 12, while the invocation for block 11 settles
    at instant 12 only. *)
Lemma join_resumes_on_first_rejection :
  ~ joinWaitsForAll 0 (config (Some 10) None None 5) mixedBatch (Scheduler.init 10).
Proof.
  intros H. specialize (H 3%nat 11).
  assert (Hle : (12 <= 3)%nat); [|lia].
  apply H; vm_compute; auto.
Qed.

(** C6, amended: the join of a batch yields one outcome per block and
    hands control back after every invocation has settled only when every
    invocation returns.  When an invocation raises, the join is rejected
    and the loop resumes at the instant of the rejection that settles
    first, without waiting for the siblings; the loop cancels none of
    them, their outcomes go unobserved. *)
Theorem join_waits_unless_an_invocation_raises idx cfg env st latest :
  dispatching cfg env (Scheduler.currBlockNumber st) latest ->
  let curr := Scheduler.currBlockNumber st in
  let width := batchWidth cfg curr latest in
  let blocks := batchBlocks curr width in
  let evs := snd (iteration idx cfg env st) in
  let invocation b := processBlock idx cfg (provider env b) b in
  (allReturn idx cfg env blocks ->
     exists t,
       joinInstants evs = [t] /\
       List.length (Js.values (batchPromises idx cfg env curr width))
       = List.length blocks /\
       forall b, In b blocks -> (Js.settledAt (invocation b) <= t)%nat) /\
  (someRaises idx cfg env blocks ->
     exists t b,
       joinInstants evs = [t] /\
       In b blocks /\
       Js.isRejected (Js.outcome (invocation b)) = true /\
       Js.settledAt (invocation b) = t /\
       forall b', In b' blocks ->
         Js.isRejected (Js.outcome (invocation b')) = true ->
         (t <= Js.settledAt (invocation b'))%nat).
Proof.
  intros Hd curr width blocks evs invocation.
  subst evs. rewrite (iteration_dispatching idx st Hd).
  destruct (runHooks_frame (hooksWhilePolling env) st) as (Hc & _ & _).
  split.
  - intros Hall. subst blocks width curr. rewrite <- Hc in Hall |- *.
    destruct (@dispatch_allReturn idx cfg env _ latest Hall) as (Hnone & ->).
    eexists. split; [simpl; now pick_events|]. split.
    + rewrite JsFacts.values_length.
      * unfold batchPromises. now rewrite length_map.
      * now apply JsFacts.firstRejection_None.
    + intros b Hb. apply JsFacts.lastSettled_upper.
      apply batchPromises_In. eauto.
  - intros Hraise. subst blocks width curr. rewrite <- Hc in Hraise |- *.
    destruct (@dispatch_someRaises idx cfg env _ latest Hraise)
      as (t & err & Hfirst & ->).
    apply JsFacts.firstRejection_Some in Hfirst.
    destruct Hfirst as [(p & Hp & Ht & Hout) Hmin].
    apply batchPromises_In in Hp. destruct Hp as (b & Hb & ->).
    exists t, b. split; [simpl; now pick_events|].
    split; [exact Hb|]. split; [subst invocation; simpl; now rewrite Hout|].
    split; [exact Ht|].
    intros b' Hb' Hrej. apply Hmin; [|exact Hrej].
    apply batchPromises_In. eauto.
Qed.

(** In [mixedBatch] the loop resumes when the invocation of one of the two
    blocks settles. *)
Lemma join_waits_unless_an_invocation_raises_witness :
  exists t b,
    joinInstants (snd (iteration 0 (config (Some 10) None None 5) mixedBatch
                         (Scheduler.init 10))) = [t] /\
    In b (batchBlocks 10 2) /\
    Js.settledAt (processBlock 0 (config (Some 10) None None 5)
                    (provider mixedBatch b) b) = t.
Proof.
  destruct (proj2 (join_waits_unless_an_invocation_raises 0 (Scheduler.init 10)
                     mixedBatch_dispatching) mixedBatch_someRaises)
    as (t & b & Hj & Hb & _ & Ht & _).
  exists t, b. auto.
Defined.

(** ** The pointer (C3) *)

(** An iteration whose batch has a raising invocation. *)
Lemma iteration_someRaises idx cfg env st latest :
  let curr := Scheduler.currBlockNumber st in
  let blocks := batchBlocks curr (batchWidth cfg curr latest) in
  dispatching cfg env curr latest ->
  someRaises idx cfg env blocks ->
  exists t err,
    iteration idx cfg env st
    = (Continue,
       runHooks (hooksWhileWaiting env) (runHooks (hooksWhilePolling env) st),
       map Invoke blocks ++ [Joined t; Caught (Js.toString err)]).
Proof.
  intros curr blocks Hd Hraise. subst blocks curr.
  rewrite (iteration_dispatching idx st Hd).
  destruct (runHooks_frame (hooksWhilePolling env) st) as (Hc & _ & _).
  rewrite <- Hc in Hraise |- *.
  destruct (@dispatch_someRaises idx cfg env _ latest Hraise)
    as (t & err & _ & ->).
  now exists t, err.
Qed.

(** An iteration whose batch returns whole. *)
Lemma iteration_allReturn idx cfg env st latest :
  let curr := Scheduler.currBlockNumber st in
  let width := batchWidth cfg curr latest in
  let blocks := batchBlocks curr width in
  dispatching cfg env curr latest ->
  allReturn idx cfg env blocks ->
  exists st' t evs,
    iteration idx cfg env st
    = (Continue, Scheduler.addCurrBlockNumber width st',
       map Invoke blocks ++ [Joined t] ++ evs ++ [BatchFinished curr width]) /\
    Scheduler.currBlockNumber st' = curr /\
    sleeps evs = [] /\ joinInstants evs = [] /\ invokedBlocks evs = [].
Proof.
  intros curr width blocks Hd Hall. subst blocks width curr.
  rewrite (iteration_dispatching idx st Hd).
  destruct (runHooks_frame (hooksWhilePolling env) st) as (Hc & _ & _).
  rewrite <- Hc in Hall |- *.
  destruct (@dispatch_allReturn idx cfg env _ latest Hall) as (_ & ->).
  do 3 eexists. split; [rewrite <- app_assoc; reflexivity|].
  split.
  - destruct (countResults_frame
                (Js.values (batchPromises idx cfg env
                   (Scheduler.currBlockNumber (runHooks (hooksWhilePolling env) st))
                   (batchWidth cfg
                      (Scheduler.currBlockNumber
                         (runHooks (hooksWhilePolling env) st)) latest)))
                (runHooks (hooksWhileWaiting env)
                   (runHooks (hooksWhilePolling env) st)) false) as (-> & _).
    now destruct (runHooks_frame (hooksWhileWaiting env)
                    (runHooks (hooksWhilePolling env) st)) as (-> & _).
  - repeat split; now pick_events.
Qed.

(** The width of a batch is positive when the batch size is. *)
Lemma batchWidth_bounds cfg curr latest :
  curr < latest ->
  (0 <= TestConfig.batchSize cfg -> 0 <= batchWidth cfg curr latest) /\
  batchWidth cfg curr latest <= TestConfig.batchSize cfg /\
  batchWidth cfg curr latest <= latest - curr.
Proof. unfold batchWidth. lia. Qed.

(** The pointer after an iteration: where it was, or one whole batch
    further. *)
Lemma iteration_pointer idx cfg env st :
  let curr := Scheduler.currBlockNumber st in
  let curr' := Scheduler.currBlockNumber (snd (fst (iteration idx cfg env st))) in
  curr' = curr \/
  exists latest, dispatching cfg env curr latest /\
                 curr' = curr + batchWidth cfg curr latest.
Proof.
  intros curr curr'. subst curr'.
  destruct (iteration_cases idx cfg env st)
    as [H|[H|[(err & _ & _ & H)|[(latest & _ & _ & _ & H)|(latest & Hd & _)]]]].
  1-4: left; rewrite H; simpl; auto.
  - now destruct (runHooks_frame (hooksWhilePolling env) st) as (-> & _).
  - destruct (runHooks_frame (hooksWhileWaiting env)
                (runHooks (hooksWhilePolling env) st)) as (-> & _).
    now destruct (runHooks_frame (hooksWhilePolling env) st) as (-> & _).
  - destruct (allReturn_or_someRaises idx cfg env
                (batchBlocks curr (batchWidth cfg curr latest))) as [Hall|Hraise].
    + right. exists latest. split; [exact Hd|].
      destruct (@iteration_allReturn idx cfg env st latest Hd Hall)
        as (st' & t & evs & -> & Hc & _). simpl. subst curr. lia.
    + left.
      destruct (@iteration_someRaises idx cfg env st latest Hd Hraise)
        as (t & err & ->). simpl.
      destruct (runHooks_frame (hooksWhileWaiting env)
                  (runHooks (hooksWhilePolling env) st)) as (-> & _).
      now destruct (runHooks_frame (hooksWhilePolling env) st) as (-> & _).
Qed.

(** However many times in a row the batch raises, the loop tries again at
    once from the same pointer. *)
Lemma loop_keepsRaising idx cfg envs n k st :
  keepsRaising idx cfg envs k n (Scheduler.currBlockNumber st) ->
  exists st' evs,
    loop n idx cfg envs k st = (Continue, st', evs) /\
    Scheduler.currBlockNumber st' = Scheduler.currBlockNumber st /\
    List.length (joinInstants evs) = n /\
    sleeps evs = [].
Proof.
  revert k st. induction n as [|n IH]; intros k st Hk.
  - exists st, []. repeat split.
  - rewrite loop_S.
    destruct (Hk O ltac:(lia)) as (latest & Hd & Hraise).
    rewrite Nat.add_0_r in Hd, Hraise.
    destruct (@iteration_someRaises idx cfg (envs k) st latest Hd Hraise)
      as (t & err & ->).
    set (st1 := runHooks _ (runHooks _ st)).
    assert (Hc : Scheduler.currBlockNumber st1 = Scheduler.currBlockNumber st).
    { subst st1.
      destruct (runHooks_frame (hooksWhileWaiting (envs k))
                  (runHooks (hooksWhilePolling (envs k)) st)) as (-> & _).
      now destruct (runHooks_frame (hooksWhilePolling (envs k)) st) as (-> & _). }
    destruct (IH (S k) st1) as (st' & evs & -> & Hc' & Hj & Hs).
    { intros j Hj. rewrite Hc. replace (S k + j)%nat with (k + S j)%nat by lia.
      apply Hk. lia. }
    do 2 eexists. split; [reflexivity|]. split; [congruence|].
    split; pick_events.
    + fold (joinInstants evs). now rewrite Hj.
    + exact Hs.
Qed.

(** C3: for every batch, the pointer advances by exactly the dispatched
    width when every invocation returned, and not at all when an
    invocation raised; it is never moved back and never moved by part of a
    batch.  After a raise the loop goes straight to its next iteration
    (no pause) and dispatches again from the same pointer: the blocks of a
    batch are set by the pointer and the tip observed.  It does so however
    many times in a row the batch raises.  (The batch size is taken
    non-negative.) *)
Theorem pointer_advances_by_whole_batches idx cfg envs :
  0 <= TestConfig.batchSize cfg ->
  (forall env st,
     let curr := Scheduler.currBlockNumber st in
     let flow := fst (fst (iteration idx cfg env st)) in
     let curr' := Scheduler.currBlockNumber (snd (fst (iteration idx cfg env st))) in
     let evs := snd (iteration idx cfg env st) in
     curr <= curr' /\
     forall latest,
       dispatching cfg env curr latest ->
       let width := batchWidth cfg curr latest in
       let blocks := batchBlocks curr width in
       invokedBlocks evs = blocks /\
       Z.of_nat (List.length blocks) = width /\
       (allReturn idx cfg env blocks -> curr' = curr + width) /\
       (someRaises idx cfg env blocks ->
          curr' = curr /\ flow = Continue /\ sleeps evs = [])) /\
  (forall n k st,
     keepsRaising idx cfg envs k n (Scheduler.currBlockNumber st) ->
     exists st' evs,
       loop n idx cfg envs k st = (Continue, st', evs) /\
       Scheduler.currBlockNumber st' = Scheduler.currBlockNumber st /\
       List.length (joinInstants evs) = n /\
       sleeps evs = []).
Proof.
  intros Hbatch. split; [|intros n k st; apply loop_keepsRaising].
  intros env st curr flow curr' evs. split.
  - destruct (iteration_pointer idx cfg env st) as [H|(latest & Hd & H)].
    + subst curr curr'. lia.
    + destruct Hd as (_ & _ & Hlt).
      destruct (batchWidth_bounds cfg Hlt) as (Hw & _).
      subst curr curr'. lia.
  - intros latest Hd width blocks.
    assert (Hlt : curr < latest) by apply Hd.
    destruct (batchWidth_bounds cfg Hlt) as (Hw & _). specialize (Hw Hbatch).
    split; [|split; [|split]].
    + subst evs. rewrite (iteration_dispatching idx st Hd), dispatch_invokedBlocks.
      now destruct (runHooks_frame (hooksWhilePolling env) st) as (-> & _).
    + subst blocks. rewrite batchBlocks_length. lia.
    + intros Hall. subst curr' evs flow.
      destruct (@iteration_allReturn idx cfg env st latest Hd Hall)
        as (st' & t & evs' & -> & Hc & _). simpl. subst width curr. lia.
    + intros Hraise. subst curr' evs flow.
      destruct (@iteration_someRaises idx cfg env st latest Hd Hraise)
        as (t & err & ->). simpl.
      destruct (runHooks_frame (hooksWhileWaiting env)
                  (runHooks (hooksWhilePolling env) st)) as (-> & _).
      destruct (runHooks_frame (hooksWhilePolling env) st) as (-> & _).
      repeat split. now pick_events.
Qed.

(** Three raising batches in a row over [mixedBatch], pointer 10. *)
Lemma pointer_advances_by_whole_batches_witness :
  0 <= TestConfig.batchSize (config (Some 10) None None 5) /\
  exists st' evs,
    loop 3 0 (config (Some 10) None None 5) (fun _ => mixedBatch) 0
      (Scheduler.init 10) = (Continue, st', evs) /\
    Scheduler.currBlockNumber st' = 10 /\
    List.length (joinInstants evs) = 3%nat /\
    sleeps evs = [].
Proof.
  assert (Hb : 0 <= TestConfig.batchSize (config (Some 10) None None 5)).
  { intros H. discriminate H. }
  split; [exact Hb|].
  apply (proj2 (@pointer_advances_by_whole_batches 0 _ (fun _ => mixedBatch) Hb)
           3%nat 0%nat (Scheduler.init 10)).
  intros j _. exists 12.
  split; [exact mixedBatch_dispatching|exact mixedBatch_someRaises].
Defined.

(** ** The order of the counters (C5) *)

(** C5, counterexample: the run over [receiptsTimeOut] ends with 2 calls
    counted and 3 failed calls, so the failed-call count exceeds the total
    call count. *)
Lemma failed_calls_can_exceed_total_calls :
  exists r evs,
    startScheduler 2 0 (config (Some 10) (Some 10) None 1) receiptsTimeOut
    = Some (Returned r, evs) /\
    TestResult.calls r = 2 /\
    TestResult.failCalls r = 3 /\
    ~ TestResult.calls r >= TestResult.failCalls r.
Proof.
  do 2 eexists. split; [vm_compute; reflexivity|]. simpl. repeat split.
  intros H. apply H. reflexivity.
Qed.

(** More fuel only extends the run. *)
Lemma loop_more_evolves fuel more idx cfg envs k st :
  evolves (snd (fst (loop fuel idx cfg envs k st)))
          (snd (fst (loop (more + fuel) idx cfg envs k st))).
Proof.
  induction more as [|more IH]; [apply evolves_refl|].
  eapply evolves_trans; [exact IH|]. apply loop_step_evolves.
Qed.

Lemma incrFailCalls_evolves st : evolves st (Scheduler.incrFailCalls st).
Proof. unfold_counters. intuition lia. Qed.

(** C5, amended: at every point of a loop's lifetime the total call
    count, the failed-call count and the timeout-call count are
    non-negative, the failed-call count is at least the timeout-call
    count, and no counter ever decreases; the counts of the result are
    non-negative.  The total call count counts the responses received, so
    it is not bounded below by the failed-call count.

    The points are the states between iterations ([loop] after any number
    of them) and, inside an iteration, the states after each hook, after
    line 405, after lines 405-408 and after line 420. *)
Theorem counters_ordered_and_never_decrease fuel idx cfg envs n hs env :
  let st0 := runHooks hs (Scheduler.init n) in
  let now := snd (fst (loop fuel idx cfg envs 0 st0)) in
  let later more := snd (fst (loop (more + fuel) idx cfg envs 0 st0)) in
  (countersOrdered now /\ forall more, countersLe now (later more)) /\
  (forall st, countersOrdered st ->
     (forall h, countersOrdered (runHook h st) /\ countersLe st (runHook h st)) /\
     (countersOrdered (Scheduler.incrFailCalls st) /\
      countersLe st (Scheduler.incrFailCalls st)) /\
     (forall f, countersOrdered (countFailure f st) /\
                countersLe st (countFailure f st)) /\
     (forall w, countersOrdered (Scheduler.addCurrBlockNumber w st) /\
                countersLe st (Scheduler.addCurrBlockNumber w st))) /\
  match startScheduler fuel idx cfg env with
  | Some (Returned r, _) =>
      0 <= TestResult.calls r /\ 0 <= TestResult.failCalls r /\
      0 <= TestResult.retryCalls r
  | _ => True
  end.
Proof.
  intros st0 now later.
  assert (Hinit : forall m hs', countersOrdered (runHooks hs' (Scheduler.init m))).
  { intros m hs'. apply (runHooks_evolves hs' (Scheduler.init m)).
    unfold countersOrdered. simpl. lia. }
  assert (Hloop : forall m hs' envs',
             countersOrdered
               (snd (fst (loop fuel idx cfg envs' 0 (runHooks hs' (Scheduler.init m)))))).
  { intros m hs' envs'. apply loop_evolves, Hinit. }
  split; [|split].
  - split; [apply Hloop|]. intros more. apply loop_more_evolves.
  - assert (Hstep : forall a b,
              evolves a b -> countersOrdered a -> countersOrdered b /\ countersLe a b)
      by (unfold evolves; tauto).
    intros st Hst. split; [|split; [|split]].
    + intros h. apply Hstep; [apply runHook_evolves|exact Hst].
    + apply Hstep; [apply incrFailCalls_evolves|exact Hst].
    + intros f. apply Hstep; [apply countFailure_evolves|exact Hst].
    + intros w. apply Hstep; [apply addCurrBlockNumber_evolves|exact Hst].
  - unfold startScheduler.
    destruct (TestConfig.startBlockNumber cfg) as [m|].
    + specialize (Hloop m [] (iterEnv env)). simpl runHooks in Hloop.
      destruct (loop fuel idx cfg (iterEnv env) 0 (Scheduler.init m))
        as [[[| |code] st'] evs]; simpl in *; auto.
      unfold countersOrdered in Hloop. lia.
    + destruct (Js.outcome (startPoll env)) as [m|err]; [|exact I].
      specialize (Hloop m (hooksAtStart env) (iterEnv env)).
      destruct (loop fuel idx cfg (iterEnv env) 0 _)
        as [[[| |code] st'] evs]; simpl in *; auto.
      unfold countersOrdered in Hloop. lia.
Qed.

(** ** The retry hook (C8) *)

(** C8: whatever the call, the response and the attempt number, the
    retry-decision hook answers false and leaves the counters alone, so no
    request is ever resent; and the retry count of every result is zero. *)
Theorem retry_hook_always_declines statusCode attempt st fuel idx cfg env :
  retryFunc statusCode attempt st = (false, st) /\
  match startScheduler fuel idx cfg env with
  | Some (Returned r, _) => TestResult.retryCalls r = 0
  | _ => True
  end.
Proof.
  split; [reflexivity|]. unfold startScheduler.
  assert (Hloop : forall m hs,
            Scheduler.retryCalls
              (snd (fst (loop fuel idx cfg (iterEnv env) 0
                           (runHooks hs (Scheduler.init m))))) = 0).
  { intros m hs.
    destruct (loop_evolves fuel idx cfg (iterEnv env) 0
                (runHooks hs (Scheduler.init m))) as (_ & _ & ->).
    now destruct (runHooks_evolves hs (Scheduler.init m)) as (_ & _ & ->). }
  destruct (TestConfig.startBlockNumber cfg) as [m|].
  - specialize (Hloop m []). simpl runHooks in Hloop.
    now destruct (loop fuel idx cfg (iterEnv env) 0 (Scheduler.init m))
      as [[[| |code] st'] evs].
  - destruct (Js.outcome (startPoll env)) as [m|err]; [|exact I].
    specialize (Hloop m (hooksAtStart env)).
    now destruct (loop fuel idx cfg (iterEnv env) 0 _) as [[[| |code] st'] evs].
Qed.

(** ** A run of two batches (C7) *)

Lemma processBlock_clean idx cfg p blockNumber :
  cleanBlock p ->
  Js.outcome (processBlock idx cfg p blockNumber) = Js.Fulfilled [].
Proof.
  intros [(block & Hblock) Hrc]. rewrite processBlock_outcome, Hblock. f_equal.
  generalize 0%nat. induction (transactions block) as [|tx txs IH]; intros i.
  - reflexivity.
  - simpl. rewrite catchRethrow_outcome. specialize (Hrc i tx).
    destruct (Js.outcome (getTransactionReceipt p i tx)); [apply IH|discriminate].
Qed.

Lemma values_all_nil A (ps : list (Js.Promise (list A))) :
  (forall p, In p ps -> Js.outcome p = Js.Fulfilled []) ->
  Forall (fun r => r = []) (Js.values ps).
Proof.
  induction ps as [|p ps IH]; simpl; intros H; [constructor|].
  rewrite (H p (or_introl eq_refl)). constructor; [reflexivity|].
  apply IH. intros q Hq. apply H. now right.
Qed.

Lemma countResults_all_nil results acc :
  Forall (fun r => r = []) results ->
  countResults results acc = acc /\ List.concat results = [].
Proof.
  induction 1 as [|r results -> _ IH]; simpl; [auto|].
  destruct IH as [-> ->]. auto.
Qed.

(** An iteration whose batch meets clean blocks only. *)
Lemma iteration_clean idx cfg env st latest :
  let curr := Scheduler.currBlockNumber st in
  let width := batchWidth cfg curr latest in
  dispatching cfg env curr latest ->
  (forall b, cleanBlock (provider env b)) ->
  exists t,
    iteration idx cfg env st
    = (Continue,
       Scheduler.addCurrBlockNumber width
         (runHooks (hooksWhileWaiting env) (runHooks (hooksWhilePolling env) st)),
       map Invoke (batchBlocks curr width) ++ [Joined t; BatchFinished curr width]).
Proof.
  intros curr width Hd Hclean. subst width curr.
  rewrite (iteration_dispatching idx st Hd).
  destruct (runHooks_frame (hooksWhilePolling env) st) as (Hc & _ & _).
  rewrite <- Hc.
  set (polled := runHooks (hooksWhilePolling env) st).
  assert (Hall : allReturn idx cfg env
                   (batchBlocks (Scheduler.currBlockNumber polled)
                      (batchWidth cfg (Scheduler.currBlockNumber polled) latest))).
  { intros b _. now rewrite processBlock_clean. }
  destruct (@dispatch_allReturn idx cfg env polled latest Hall) as (_ & ->).
  destruct (@countResults_all_nil
              (Js.values (batchPromises idx cfg env (Scheduler.currBlockNumber polled)
                            (batchWidth cfg (Scheduler.currBlockNumber polled) latest)))
              (runHooks (hooksWhileWaiting env) polled, false)) as [-> ->].
  { apply values_all_nil. intros p Hp. apply batchPromises_In in Hp.
    destruct Hp as (b & _ & ->). now apply processBlock_clean. }
  eexists. reflexivity.
Qed.

Lemma consecutive_app lo a b :
  consecutive lo (a + b)
  = consecutive lo a ++ consecutive (lo + Z.of_nat a) b.
Proof.
  revert lo. induction a as [|a IH]; intros lo.
  - simpl. f_equal. lia.
  - cbn [consecutive Nat.add app]. rewrite IH. do 3 f_equal. lia.
Qed.

(** C7: a run configured with finishBlockNumber = startBlockNumber +
    2*batchSize - 1, whose polls always find the tip at least batchSize
    ahead of the pointer and whose blocks and receipts are all fetched
    without failure, makes exactly two dispatch iterations and stops; the
    final block of its result is finishBlockNumber.  (The batch size is
    taken positive, and the time bound, if one is set, not reached.)  Three
    iterations of fuel suffice, and more change nothing. *)
Theorem two_batches_reach_the_finish_block fuel idx cfg env start :
  1 <= TestConfig.batchSize cfg ->
  TestConfig.startBlockNumber cfg = Some start ->
  TestConfig.finishBlockNumber cfg
  = Some (start + 2 * TestConfig.batchSize cfg - 1) ->
  withinTimeBound cfg env ->
  tipStaysAhead idx cfg env start ->
  (forall k b, cleanBlock (provider (iterEnv env k) b)) ->
  (3 <= fuel)%nat ->
  exists r evs,
    startScheduler fuel idx cfg env = Some (Returned r, evs) /\
    List.length (joinInstants evs) = 2%nat /\
    invokedBlocks evs
    = consecutive (start + 1) (Z.to_nat (2 * TestConfig.batchSize cfg)) /\
    TestResult.startBlockNumber r = start /\
    TestResult.finishBlockNumber r = start + 2 * TestConfig.batchSize cfg - 1.
Proof.
  intros Hbatch Hstart Hfinish Htime Htip Hclean Hfuel.
  set (batch := TestConfig.batchSize cfg) in *.
  set (envs := iterEnv env).
  set (st0 := Scheduler.init start).
  assert (Hc0 : Scheduler.currBlockNumber st0 = start) by reflexivity.
  (* first batch *)
  destruct (Htip 0%nat) as (tip0 & Hpoll0 & Hahead0).
  change (pointerAt idx cfg env start 0) with start in Hahead0.
  assert (Hd0 : dispatching cfg (envs 0%nat) (Scheduler.currBlockNumber st0) tip0).
  { unfold dispatching, keepsRunning. rewrite Hfinish, Hc0.
    repeat split; [lia|apply Htime|exact Hpoll0|lia]. }
  destruct (@iteration_clean idx cfg (envs 0%nat) st0 tip0 Hd0 (Hclean 0%nat))
    as (t0 & Hit0).
  assert (Hw0 : batchWidth cfg (Scheduler.currBlockNumber st0) tip0 = batch).
  { unfold batchWidth. rewrite Hc0. lia. }
  rewrite Hw0, Hc0 in Hit0.
  set (st1 := Scheduler.addCurrBlockNumber batch _) in Hit0.
  assert (Hc1 : Scheduler.currBlockNumber st1 = start + batch).
  { subst st1. unfold Scheduler.addCurrBlockNumber at 1.
    cbn [Scheduler.currBlockNumber].
    destruct (runHooks_frame (hooksWhileWaiting (envs 0%nat))
                (runHooks (hooksWhilePolling (envs 0%nat)) st0)) as (-> & _).
    now destruct (runHooks_frame (hooksWhilePolling (envs 0%nat)) st0) as (-> & _). }
  (* second batch *)
  destruct (Htip 1%nat) as (tip1 & Hpoll1 & Hahead1).
  unfold pointerAt in Hahead1. fold envs in Hahead1. fold st0 in Hahead1.
  rewrite loop_S, Hit0 in Hahead1. cbn [loop fst snd] in Hahead1.
  rewrite Hc1 in Hahead1.
  assert (Hd1 : dispatching cfg (envs 1%nat) (Scheduler.currBlockNumber st1) tip1).
  { unfold dispatching, keepsRunning. rewrite Hfinish, Hc1.
    repeat split; [lia|apply Htime|exact Hpoll1|lia]. }
  destruct (@iteration_clean idx cfg (envs 1%nat) st1 tip1 Hd1 (Hclean 1%nat))
    as (t1 & Hit1).
  assert (Hw1 : batchWidth cfg (Scheduler.currBlockNumber st1) tip1 = batch).
  { unfold batchWidth. rewrite Hc1. lia. }
  rewrite Hw1, Hc1 in Hit1.
  set (st2 := Scheduler.addCurrBlockNumber batch _) in Hit1.
  assert (Hc2 : Scheduler.currBlockNumber st2 = start + 2 * batch).
  { subst st2. unfold Scheduler.addCurrBlockNumber at 1.
    cbn [Scheduler.currBlockNumber].
    destruct (runHooks_frame (hooksWhileWaiting (envs 1%nat))
                (runHooks (hooksWhilePolling (envs 1%nat)) st1)) as (-> & _).
    destruct (runHooks_frame (hooksWhilePolling (envs 1%nat)) st1) as (-> & _).
    lia. }
  (* the stop *)
  assert (Hit2 : iteration idx cfg (envs 2%nat) st2 = (Break, st2, [StopFinish])).
  { unfold iteration. rewrite Hfinish, Hc2.
    replace (start + 2 * batch >? start + 2 * batch - 1) with true; [reflexivity|].
    symmetry. rewrite Z.gtb_ltb. apply Z.ltb_lt. lia. }
  destruct fuel as [|[|[|fuel]]]; try lia.
  unfold startScheduler. rewrite Hstart. fold envs. fold st0.
  rewrite loop_S, Hit0, loop_S, Hit1, loop_S, Hit2.
  do 2 eexists. split; [reflexivity|].
  cbn [result TestResult.finishBlockNumber TestResult.startBlockNumber].
  rewrite Hc2.
  split; [now pick_events|]. split; [|split; [reflexivity|lia]].
  unfold invokedBlocks. rewrite !pick_app.
  rewrite !(pick_map_Some _ _ (fun x => x)) by reflexivity. rewrite !map_id.
  cbn [pick]. rewrite !app_nil_r, !batchBlocks_consecutive.
  replace (Z.to_nat (2 * batch)) with (Z.to_nat batch + Z.to_nat batch)%nat by lia.
  rewrite consecutive_app. do 2 f_equal. lia.
Qed.

(** Once the loop has stopped, more fuel changes nothing. *)
Lemma loop_fuel_stable fuel fuel' idx cfg envs k st :
  fst (fst (loop fuel idx cfg envs k st)) <> Continue ->
  (fuel <= fuel')%nat ->
  loop fuel' idx cfg envs k st = loop fuel idx cfg envs k st.
Proof.
  revert fuel' k st. induction fuel as [|fuel IH]; intros fuel' k st Hstop Hle.
  - now destruct Hstop.
  - destruct fuel' as [|fuel']; [lia|].
    rewrite !loop_S. rewrite loop_S in Hstop.
    destruct (iteration idx cfg (envs k) st) as [[[| |code] st'] evs];
      try reflexivity.
    rewrite (IH fuel' (S k) st'); [reflexivity| |lia].
    now destruct (loop fuel idx cfg envs (S k) st') as [[f s] e].
Qed.

(** The run over [sixBlocks]: blocks 101 to 106 in two batches, final
    block 105. *)
Lemma two_batches_reach_the_finish_block_witness :
  exists r evs,
    startScheduler 3 7 (config (Some 100) (Some 105) None 3) sixBlocks
    = Some (Returned r, evs) /\
    List.length (joinInstants evs) = 2%nat /\
    invokedBlocks evs = consecutive 101 6 /\
    TestResult.startBlockNumber r = 100 /\
    TestResult.finishBlockNumber r = 105.
Proof.
  apply (@two_batches_reach_the_finish_block 3 7
           (config (Some 100) (Some 105) None 3) sixBlocks 100).
  - intros H. discriminate H.
  - reflexivity.
  - reflexivity.
  - intros k. exact I.
  - intros k. exists 1000. split; [reflexivity|]. unfold pointerAt.
    destruct k as [|[|[|k]]]; intros H; discriminate H.
  - intros k b. split; [eexists; reflexivity|reflexivity].
  - apply le_n.
Defined.

(** ** The summary (C9) *)

(** C9: for every result rendered in the summary, the average latency
    printed is totalCallMs divided by the call count, and the
    calls-per-second printed is the call count divided by the elapsed
    seconds, finish time minus start time taken in seconds. *)
Theorem summary_average_and_throughput startTimeMs r :
  avgCallTimeMs (summary startTimeMs r)
  = specAverageLatencyMs (TestResult.totalCallMs r) (TestResult.calls r) /\
  elapsedTimeSecs (summary startTimeMs r)
  = specElapsedSeconds startTimeMs (TestResult.finishTimeMs r) /\
  rps (summary startTimeMs r)
  = specCallsPerSecond (TestResult.calls r)
      (specElapsedSeconds startTimeMs (TestResult.finishTimeMs r)).
Proof. repeat split. Qed.

(** The summary of a run of 10 calls that took 2500 ms in all and ended
    4 s after the start: 250 ms a call, 2.5 calls a second. *)
Example summary_of_ten_calls :
  let r := {| TestResult.idx := 0; TestResult.calls := 10;
              TestResult.failCalls := 0; TestResult.retryCalls := 0;
              TestResult.finishTimeMs := 1700000004000;
              TestResult.startBlockNumber := 1; TestResult.finishBlockNumber := 5;
              TestResult.totalCallMs := 2500; TestResult.rpcUrl := "" |} in
  avgCallTimeMs (summary 1700000000000 r) = 250%float /\
  rps (summary 1700000000000 r) = 2.5%float.
Proof. split; reflexivity. Qed.

(** With no call counted the average is 0/0, which is NaN. *)
Example summary_of_no_call :
  let r := {| TestResult.idx := 0; TestResult.calls := 0;
              TestResult.failCalls := 0; TestResult.retryCalls := 0;
              TestResult.finishTimeMs := 1700000004000;
              TestResult.startBlockNumber := 1; TestResult.finishBlockNumber := 0;
              TestResult.totalCallMs := 0; TestResult.rpcUrl := "" |} in
  PrimFloat.is_nan (avgCallTimeMs (summary 1700000000000 r)) = true.
Proof. reflexivity. Qed.

(* ================================================================== *)
(** * Further properties of the scheduler *)

(** ** The ways a run can end *)

(** Whatever tips the polls observe, a run never ends through the rollback
    exit of line 384. *)
Theorem rollback_exit_is_unreachable fuel idx cfg env code evs :
  startScheduler fuel idx cfg env <> Some (Exited code, evs).
Proof.
  unfold startScheduler.
  assert (Hloop : forall st,
            match loop fuel idx cfg (iterEnv env) 0 st with
            | (Continue, _, _) => None
            | (Exit code', _, evs') => Some (Exited code', evs')
            | (Break, st', evs') =>
                Some (Returned (result idx cfg (Scheduler.currBlockNumber st)
                                  (returnNow env) st'), evs')
            end <> Some (Exited code, evs)).
  { intros st. pose proof (loop_never_exits fuel idx cfg (iterEnv env) 0 st) as H.
    destruct (loop fuel idx cfg (iterEnv env) 0 st) as [[[| |code'] st'] evs'];
      simpl in *; try discriminate. now destruct (H code'). }
  destruct (TestConfig.startBlockNumber cfg) as [m|].
  - apply (Hloop (Scheduler.init m)).
  - destruct (Js.outcome (startPoll env)) as [m|err]; [|discriminate].
    specialize (Hloop (runHooks (hooksAtStart env) (Scheduler.init m))).
    now destruct (runHooks_frame (hooksAtStart env) (Scheduler.init m))
      as (Hc & _); rewrite Hc in Hloop.
Qed.

(** The pointer never goes back, over any number of iterations, when the
    batch size is not negative. *)
Lemma loop_pointer_le fuel idx cfg envs k st :
  0 <= TestConfig.batchSize cfg ->
  Scheduler.currBlockNumber st
  <= Scheduler.currBlockNumber (snd (fst (loop fuel idx cfg envs k st))).
Proof.
  intros Hbatch. revert k st. induction fuel as [|fuel IH]; intros k st.
  - simpl. lia.
  - rewrite loop_S.
    assert (Hit : Scheduler.currBlockNumber st
                  <= Scheduler.currBlockNumber
                       (snd (fst (iteration idx cfg (envs k) st)))).
    { destruct (iteration_pointer idx cfg (envs k) st)
        as [H|(latest & (_ & _ & Hlt) & H)]; [lia|].
      destruct (batchWidth_bounds cfg Hlt) as (Hw & _). lia. }
    destruct (iteration idx cfg (envs k) st) as [[[| |code] st'] evs];
      simpl in *; try exact Hit.
    specialize (IH (S k) st').
    destruct (loop fuel idx cfg envs (S k) st') as [[f s] e]. simpl in *. lia.
Qed.

(** The final block of a result is never more than one block before its
    start block (the case of a run that processed nothing), when the batch
    size is not negative. *)
Theorem final_block_not_before_start fuel idx cfg env r evs :
  0 <= TestConfig.batchSize cfg ->
  startScheduler fuel idx cfg env = Some (Returned r, evs) ->
  TestResult.startBlockNumber r - 1 <= TestResult.finishBlockNumber r.
Proof.
  intros Hbatch. unfold startScheduler.
  assert (Hloop : forall m st,
            Scheduler.currBlockNumber st = m ->
            match loop fuel idx cfg (iterEnv env) 0 st with
            | (Continue, _, _) => None
            | (Exit code', _, evs') => Some (Exited code', evs')
            | (Break, st', evs') =>
                Some (Returned (result idx cfg m (returnNow env) st'), evs')
            end = Some (Returned r, evs) ->
            TestResult.startBlockNumber r - 1 <= TestResult.finishBlockNumber r).
  { intros m st Hm.
    pose proof (@loop_pointer_le fuel idx cfg (iterEnv env) 0 st Hbatch) as Hle.
    destruct (loop fuel idx cfg (iterEnv env) 0 st) as [[[| |code'] st'] evs'];
      try discriminate.
    intros [= <- _]. simpl in *. lia. }
  destruct (TestConfig.startBlockNumber cfg) as [m|].
  - apply Hloop. reflexivity.
  - destruct (Js.outcome (startPoll env)) as [m|err]; [|discriminate].
    apply Hloop. now destruct (runHooks_frame (hooksAtStart env) (Scheduler.init m))
      as (-> & _).
Qed.

(** The run over [sixBlocks] starts at 100 and ends at 105. *)
Lemma final_block_not_before_start_witness :
  exists r evs,
    startScheduler 3 7 (config (Some 100) (Some 105) None 3) sixBlocks
    = Some (Returned r, evs) /\
    TestResult.startBlockNumber r - 1 <= TestResult.finishBlockNumber r.
Proof.
  do 2 eexists. split; [vm_compute; reflexivity|].
  eapply (@final_block_not_before_start 3 7 (config (Some 100) (Some 105) None 3)
            sixBlocks).
  - intros H. discriminate H.
  - vm_compute. reflexivity.
Defined.

(** ** The blocks a batch asks for *)

(** A batch never asks for a block above the tip its iteration observed,
    and the pointer never passes that tip.  The earlier revision never asks
    for the tip block itself. *)
Theorem batch_stays_within_the_tip idx cfg env st latest :
  dispatching cfg env (Scheduler.currBlockNumber st) latest ->
  let curr := Scheduler.currBlockNumber st in
  let curr' := Scheduler.currBlockNumber (snd (fst (iteration idx cfg env st))) in
  (forall b, In b (invokedBlocks (snd (iteration idx cfg env st))) ->
             curr < b <= latest) /\
  curr' <= latest /\
  (forall b, In b (invokedBlocks (snd (Earlier.iteration idx cfg env st))) ->
             curr <= b < latest).
Proof.
  intros Hd curr curr'.
  assert (Hlt : curr < latest) by apply Hd.
  destruct (batchWidth_bounds cfg Hlt) as (_ & _ & Hw).
  split; [|split].
  - intros b. rewrite (iteration_dispatching idx st Hd), dispatch_invokedBlocks.
    destruct (runHooks_frame (hooksWhilePolling env) st) as (-> & _).
    rewrite batchBlocks_consecutive, consecutive_In. fold curr. lia.
  - subst curr'.
    destruct (iteration_pointer idx cfg env st) as [H|(latest' & Hd' & H)].
    + fold curr in H. lia.
    + destruct Hd as (_ & Hp & _). destruct Hd' as (_ & Hp' & Hlt').
      rewrite Hp in Hp'. injection Hp' as <-.
      fold curr in H. lia.
  - intros b.
    rewrite (earlier_iteration_dispatching idx st Hd), earlier_dispatch_invokedBlocks.
    rewrite earlier_runHooks_curr, earlier_batchBlocks_consecutive, consecutive_In.
    fold curr. lia.
Qed.

(** In [mixedBatch] (pointer 10, tip 12) block 12 is asked for and is not
    above the tip. *)
Lemma batch_stays_within_the_tip_witness :
  In 12 (invokedBlocks (snd (iteration 0 (config (Some 10) None None 5)
                               mixedBatch (Scheduler.init 10)))) /\
  10 < 12 <= 12.
Proof.
  assert (Hin : In 12 (invokedBlocks
                         (snd (iteration 0 (config (Some 10) None None 5)
                                 mixedBatch (Scheduler.init 10))))).
  { right. left. reflexivity. }
  split; [exact Hin|].
  exact (proj1 (batch_stays_within_the_tip 0 (Scheduler.init 10)
                  mixedBatch_dispatching) 12 Hin).
Defined.

(** ** Iterations that dispatch nothing *)

Lemma iteration_caughtUp idx cfg env st :
  caughtUp cfg env (Scheduler.currBlockNumber st) ->
  iteration idx cfg env st
  = (Continue,
     runHooks (hooksWhileWaiting env) (runHooks (hooksWhilePolling env) st),
     [Sleep 200]).
Proof.
  intros (Hrun & latest & Hpoll & Hle). unfold iteration.
  destruct (keepsRunning_checks Hrun) as [-> ->]. rewrite Hpoll. simpl.
  rewrite Z.geb_leb. replace (latest <=? _) with true; [reflexivity|].
  symmetry. now apply Z.leb_le.
Qed.

Lemma earlier_iteration_caughtUp idx cfg env st :
  caughtUp cfg env (Scheduler.currBlockNumber st) ->
  exists latest,
    Earlier.iteration idx cfg env st
    = (Continue, Earlier.runHooks (hooksWhilePolling env) st,
       [ReachedLatest latest]).
Proof.
  intros (Hrun & latest & Hpoll & Hle). exists latest. unfold Earlier.iteration.
  destruct (keepsRunning_checks Hrun) as [-> ->]. rewrite Hpoll.
  rewrite Z.geb_leb. replace (latest <=? _) with true; [reflexivity|].
  symmetry. now apply Z.leb_le.
Qed.

Lemma iteration_pollFails idx cfg env st :
  pollFails cfg env (Scheduler.currBlockNumber st) ->
  exists err,
    Js.outcome (getBlockNumber env) = Js.Rejected err /\
    iteration idx cfg env st
    = (Continue, runHooks (hooksWhilePolling env) st, [Caught (Js.toString err)]).
Proof.
  intros (Hrun & err & Hpoll). exists err. split; [exact Hpoll|].
  unfold iteration. destruct (keepsRunning_checks Hrun) as [-> ->].
  now rewrite Hpoll.
Qed.

Lemma runHooks_curr hs st :
  Scheduler.currBlockNumber (runHooks hs st) = Scheduler.currBlockNumber st.
Proof. apply runHooks_frame. Qed.

Lemma earlier_loop_S fuel idx cfg envs k st :
  Earlier.loop (S fuel) idx cfg envs k st
  = match Earlier.iteration idx cfg (envs k) st with
    | (Continue, st', evs) =>
        let '(flow, st'', evs') := Earlier.loop fuel idx cfg envs (S k) st' in
        (flow, st'', evs ++ evs')
    | stopped => stopped
    end.
Proof. reflexivity. Qed.

(** While the pointer has caught up with the tip the loop asks for no
    block and waits 200 ms before each new poll, however long that lasts;
    the earlier revision polls again without waiting. *)
Theorem caught_up_loop_waits_between_polls idx cfg envs n k st :
  (forall j, (j < n)%nat ->
     caughtUp cfg (envs (k + j)%nat) (Scheduler.currBlockNumber st)) ->
  (exists st' evs,
     loop n idx cfg envs k st = (Continue, st', evs) /\
     Scheduler.currBlockNumber st' = Scheduler.currBlockNumber st /\
     invokedBlocks evs = [] /\
     sleeps evs = repeat 200 n) /\
  (exists st' evs,
     Earlier.loop n idx cfg envs k st = (Continue, st', evs) /\
     Scheduler.currBlockNumber st' = Scheduler.currBlockNumber st /\
     invokedBlocks evs = [] /\
     sleeps evs = []).
Proof.
  revert k st. induction n as [|n IH]; intros k st Hup.
  - split; exists st, []; repeat split.
  - assert (Hup0 : caughtUp cfg (envs k) (Scheduler.currBlockNumber st)).
    { specialize (Hup 0%nat ltac:(lia)). now rewrite Nat.add_0_r in Hup. }
    assert (Hnext : forall st1,
              Scheduler.currBlockNumber st1 = Scheduler.currBlockNumber st ->
              forall j, (j < n)%nat ->
                caughtUp cfg (envs (S k + j)%nat) (Scheduler.currBlockNumber st1)).
    { intros st1 Hc j Hj. rewrite Hc.
      replace (S k + j)%nat with (k + S j)%nat by lia. apply Hup. lia. }
    split.
    + rewrite loop_S, (iteration_caughtUp idx st Hup0).
      set (st1 := runHooks _ (runHooks _ st)).
      assert (Hc : Scheduler.currBlockNumber st1 = Scheduler.currBlockNumber st)
        by (subst st1; now rewrite !runHooks_curr).
      destruct (proj1 (IH (S k) st1 (Hnext st1 Hc)))
        as (st' & evs & -> & Hc' & Hi & Hs).
      do 2 eexists. split; [reflexivity|]. split; [congruence|].
      simpl. split; [exact Hi|]. unfold sleeps in *. simpl. now rewrite Hs.
    + destruct (earlier_iteration_caughtUp idx st Hup0) as (latest & Hit).
      rewrite earlier_loop_S, Hit.
      set (st1 := Earlier.runHooks _ st).
      assert (Hc : Scheduler.currBlockNumber st1 = Scheduler.currBlockNumber st)
        by (subst st1; apply earlier_runHooks_curr).
      destruct (proj2 (IH (S k) st1 (Hnext st1 Hc)))
        as (st' & evs & -> & Hc' & Hi & Hs).
      do 2 eexists. split; [reflexivity|]. split; [congruence|].
      simpl. split; [exact Hi|exact Hs].
Qed.

(** While the poll of the tip is rejected the loop catches the error and
    polls again at once: no block is asked for, nothing waits, the pointer
    stays, and this goes on for as long as the poll fails. *)
Theorem failed_poll_is_retried_at_once idx cfg envs n k st :
  (forall j, (j < n)%nat ->
     pollFails cfg (envs (k + j)%nat) (Scheduler.currBlockNumber st)) ->
  exists st' evs,
    loop n idx cfg envs k st = (Continue, st', evs) /\
    Scheduler.currBlockNumber st' = Scheduler.currBlockNumber st /\
    Scheduler.failCalls st' = Scheduler.failCalls st /\
    invokedBlocks evs = [] /\
    sleeps evs = [] /\
    List.length (caughtErrors evs) = n.
Proof.
  revert k st. induction n as [|n IH]; intros k st Hfail.
  - exists st, []. repeat split.
  - assert (Hfail0 : pollFails cfg (envs k) (Scheduler.currBlockNumber st)).
    { specialize (Hfail 0%nat ltac:(lia)). now rewrite Nat.add_0_r in Hfail. }
    destruct (iteration_pollFails idx st Hfail0) as (err & _ & Hit).
    rewrite loop_S, Hit.
    set (st1 := runHooks _ st).
    destruct (runHooks_frame (hooksWhilePolling (envs k)) st) as (Hc & Hf & _).
    fold st1 in Hc, Hf.
    destruct (IH (S k) st1) as (st' & evs & -> & Hc' & Hf' & Hi & Hs & Hn).
    { intros j Hj. rewrite Hc.
      replace (S k + j)%nat with (k + S j)%nat by lia. apply Hfail. lia. }
    do 2 eexists. split; [reflexivity|].
    split; [congruence|]. split; [congruence|].
    simpl. split; [exact Hi|]. split; [exact Hs|].
    unfold caughtErrors in *. simpl. now rewrite Hn.
Qed.

(** Pointer 10, tip 5, three iterations: three waits of 200 ms. *)
Lemma caught_up_loop_waits_between_polls_witness :
  exists st' evs,
    loop 3 0 (config (Some 10) None None 3) (fun _ => quietIteration 0 5) 0
      (Scheduler.init 10) = (Continue, st', evs) /\
    Scheduler.currBlockNumber st' = 10 /\
    invokedBlocks evs = [] /\
    sleeps evs = [200; 200; 200].
Proof.
  apply (fun H => proj1 (@caught_up_loop_waits_between_polls 0
                            (config (Some 10) None None 3)
                            (fun _ => quietIteration 0 5) 3 0
                            (Scheduler.init 10) H)).
  intros j _. split; [split; exact I|].
  exists 5. split; [reflexivity|]. intros H. discriminate H.
Defined.

(** Three polls in a row that time out, pointer 10. *)
Lemma failed_poll_is_retried_at_once_witness :
  exists st' evs,
    loop 3 0 (config (Some 10) None None 3) (fun _ => failingPoll) 0
      (Scheduler.init 10) = (Continue, st', evs) /\
    Scheduler.currBlockNumber st' = 10 /\
    Scheduler.failCalls st' = 0 /\
    invokedBlocks evs = [] /\
    sleeps evs = [] /\
    List.length (caughtErrors evs) = 3%nat.
Proof.
  apply (@failed_poll_is_retried_at_once 0 (config (Some 10) None None 3)
           (fun _ => failingPoll) 3 0 (Scheduler.init 10)).
  intros j _. split; [split; exact I|].
  eexists. reflexivity.
Defined.

(** ** What a batch that returns adds to the counters *)

Lemma countBlock_timeoutCalls fails st b :
  Scheduler.timeoutCalls (fst (countBlock fails (st, b)))
  = Scheduler.timeoutCalls st + Z.of_nat (List.length (filter isTimeout fails)).
Proof.
  revert st b. induction fails as [|f fails IH]; intros st b.
  - simpl. lia.
  - simpl countBlock. rewrite IH. simpl filter. unfold countFailure, isTimeout.
    destruct (Js.includes (reason f) "timeout"); simpl; lia.
Qed.

Lemma countResults_timeoutCalls results st b :
  Scheduler.timeoutCalls (fst (countResults results (st, b)))
  = Scheduler.timeoutCalls st
    + Z.of_nat (List.length (filter isTimeout (List.concat results))).
Proof.
  revert st b. induction results as [|fails results IH]; intros st b.
  - simpl. lia.
  - simpl. destruct (countBlock fails (st, b)) as [st' b'] eqn:Hcb.
    rewrite IH, filter_app, length_app.
    pose proof (countBlock_timeoutCalls fails st b) as H. rewrite Hcb in H.
    simpl in H. lia.
Qed.

(** The values of the promises that fulfilled, flattened, are what the
    invocations returned. *)
Lemma concat_values_returnedFailures idx cfg env blocks :
  List.concat
    (Js.values
       (map (fun b => processBlock idx cfg (provider env b) b) blocks))
  = returnedFailures idx cfg env blocks.
Proof.
  unfold returnedFailures. induction blocks as [|b blocks IH]; simpl.
  - reflexivity.
  - destruct (Js.outcome (processBlock idx cfg (provider env b) b)); simpl;
      now rewrite IH.
Qed.

(** When every invocation of a batch returns, the loop counts every
    failure returned, once: the failed-call count grows by their number,
    the timeout count by the number of those whose reason mentions
    "timeout", each is logged, and the pointer advances by the width all
    the same. *)
Theorem returned_failures_are_counted_once idx cfg env st latest :
  let curr := Scheduler.currBlockNumber st in
  let width := batchWidth cfg curr latest in
  let fails := returnedFailures idx cfg env (batchBlocks curr width) in
  let st' := snd (fst (iteration idx cfg env st)) in
  dispatching cfg env curr latest ->
  allReturn idx cfg env (batchBlocks curr width) ->
  loggedFailures (snd (iteration idx cfg env st)) = fails /\
  Scheduler.failCalls st' = Scheduler.failCalls st + Z.of_nat (List.length fails) /\
  Scheduler.timeoutCalls st'
  = Scheduler.timeoutCalls st + Z.of_nat (List.length (filter isTimeout fails)) /\
  Scheduler.currBlockNumber st' = curr + width.
Proof.
  intros curr width fails st' Hd Hall. subst st' fails width curr.
  rewrite (iteration_dispatching idx st Hd).
  destruct (runHooks_frame (hooksWhilePolling env) st) as (Hc & Hf & Ht).
  rewrite <- Hc in Hall |- *.
  set (polled := runHooks (hooksWhilePolling env) st) in *.
  destruct (@dispatch_allReturn idx cfg env polled latest Hall) as (_ & ->).
  set (curr := Scheduler.currBlockNumber polled).
  set (width := batchWidth cfg curr latest).
  rewrite <- (concat_values_returnedFailures idx cfg env (batchBlocks curr width)).
  fold (batchPromises idx cfg env curr width).
  set (results := Js.values (batchPromises idx cfg env curr width)).
  destruct (runHooks_frame (hooksWhileWaiting env) polled) as (Hc2 & Hf2 & Ht2).
  split; [|split; [|split]].
  - simpl. now pick_events.
  - simpl. rewrite countResults_failCalls. lia.
  - simpl. rewrite countResults_timeoutCalls. lia.
  - simpl. destruct (countResults_frame results
                       (runHooks (hooksWhileWaiting env) polled) false) as (-> & _).
    lia.
Qed.

(** Over [receiptsTimeOutIteration] the three timed-out receipts of block
    11 are counted as three failed calls and three timeouts. *)
Lemma returned_failures_are_counted_once_witness :
  let st' := snd (fst (iteration 0 (config (Some 10) (Some 10) None 1)
                         receiptsTimeOutIteration (Scheduler.init 10))) in
  Scheduler.failCalls st' = 3 /\ Scheduler.timeoutCalls st' = 3 /\
  Scheduler.currBlockNumber st' = 11.
Proof.
  assert (Hd : dispatching (config (Some 10) (Some 10) None 1)
                 receiptsTimeOutIteration
                 (Scheduler.currBlockNumber (Scheduler.init 10)) 11).
  { split; [split; [intros H; discriminate H|exact I]|].
    split; [reflexivity|reflexivity]. }
  assert (Hall : allReturn 0 (config (Some 10) (Some 10) None 1)
                   receiptsTimeOutIteration
                   (batchBlocks (Scheduler.currBlockNumber (Scheduler.init 10))
                      (batchWidth (config (Some 10) (Some 10) None 1)
                         (Scheduler.currBlockNumber (Scheduler.init 10)) 11))).
  { intros b _. reflexivity. }
  destruct (@returned_failures_are_counted_once 0 _ _ (Scheduler.init 10) 11 Hd Hall)
    as (_ & Hf & Ht & Hc).
  exact (conj Hf (conj Ht Hc)).
Defined.

(** ** The join of the receipts *)

Lemma receiptPromises_upper provider t0 i txs j tx :
  nth_error txs j = Some tx ->
  (Js.settledAt (getTransactionReceipt provider (i + j) tx)
   <= Js.lastSettled t0 (receiptPromises provider i txs))%nat.
Proof.
  revert i j. induction txs as [|tx' txs IH]; intros i j Hnth.
  - destruct j; discriminate.
  - simpl. rewrite catchRethrow_settledAt. destruct j as [|j].
    + injection Hnth as ->. rewrite Nat.add_0_r. lia.
    + simpl in Hnth. specialize (IH (S i) j Hnth).
      replace (i + S j)%nat with (S i + j)%nat by lia. lia.
Qed.

(** [processBlock] settles when the block fetch fails, and otherwise only
    once the fetch and every receipt request have settled, rejected ones
    included: a receipt that fails never cuts the wait for the others
    short. *)
Theorem processBlock_waits_for_every_receipt idx cfg provider blockNumber :
  let done := Js.settledAt (processBlock idx cfg provider blockNumber) in
  match Js.outcome (getBlock provider) with
  | Js.Fulfilled (Some block) =>
      (Js.settledAt (getBlock provider) <= done)%nat /\
      forall j tx,
        nth_error (transactions block) j = Some tx ->
        (Js.settledAt (getTransactionReceipt provider j tx) <= done)%nat
  | _ => done = Js.settledAt (getBlock provider)
  end.
Proof.
  unfold processBlock.
  destruct (Js.outcome (getBlock provider)) as [[block|]|err]; simpl;
    try reflexivity.
  split; [apply JsFacts.lastSettled_base|].
  intros j tx Hnth.
  apply (@receiptPromises_upper provider (Js.settledAt (getBlock provider)) 0 _ j tx Hnth).
Qed.

(** ** The earlier revision: a receipt failure holds the batch back *)

Lemma earlier_runHooks_frame hs st :
  Scheduler.currBlockNumber (Earlier.runHooks hs st) = Scheduler.currBlockNumber st /\
  Scheduler.failCalls (Earlier.runHooks hs st) = Scheduler.failCalls st.
Proof.
  unfold Earlier.runHooks. revert st. induction hs as [|h hs IH]; simpl; intros st.
  - auto.
  - destruct (IH (Earlier.runHook h st)) as (-> & ->). now destruct h.
Qed.

Lemma earlier_countBlock_spec fails st b :
  Scheduler.currBlockNumber (fst (Earlier.countBlock fails (st, b)))
  = Scheduler.currBlockNumber st /\
  Scheduler.failCalls (fst (Earlier.countBlock fails (st, b)))
  = Scheduler.failCalls st + Z.of_nat (List.length fails) /\
  snd (Earlier.countBlock fails (st, b))
  = (b || negb (Nat.eqb (List.length fails) 0))%bool.
Proof.
  revert st b. induction fails as [|f fails IH]; intros st b.
  - simpl. rewrite orb_false_r. repeat split. lia.
  - simpl Earlier.countBlock. destruct (IH (Scheduler.incrFailCalls st) true)
      as (-> & -> & ->).
    simpl. rewrite orb_true_r. repeat split. lia.
Qed.

Lemma earlier_countResults_spec results st b :
  Scheduler.currBlockNumber (fst (Earlier.countResults results (st, b)))
  = Scheduler.currBlockNumber st /\
  Scheduler.failCalls (fst (Earlier.countResults results (st, b)))
  = Scheduler.failCalls st + Z.of_nat (List.length (List.concat results)) /\
  snd (Earlier.countResults results (st, b))
  = (b || negb (Nat.eqb (List.length (List.concat results)) 0))%bool.
Proof.
  revert st b. induction results as [|fails results IH]; intros st b.
  - simpl. rewrite orb_false_r. repeat split. lia.
  - simpl Earlier.countResults.
    destruct (earlier_countBlock_spec fails st b) as (Hc & Hf & Hb).
    destruct (Earlier.countBlock fails (st, b)) as [st1 b1]. simpl in Hc, Hf, Hb.
    destruct (IH st1 b1) as (-> & -> & ->). simpl List.concat.
    rewrite length_app, Hc, Hf, Hb. repeat split; [lia|].
    destruct (List.length fails), (List.length (List.concat results)), b;
      reflexivity.
Qed.

(** An iteration of the earlier revision whose batch returns whole. *)
Lemma earlier_iteration_allReturn idx cfg env st latest :
  let curr := Scheduler.currBlockNumber st in
  let width := batchWidth cfg curr latest in
  let fails := returnedFailures idx cfg env (Earlier.batchBlocks curr width) in
  dispatching cfg env curr latest ->
  (forall b, In b (Earlier.batchBlocks curr width) ->
     Js.isRejected (Js.outcome (processBlock idx cfg (provider env b) b)) = false) ->
  exists st' evs,
    Earlier.iteration idx cfg env st = (Continue, st', evs) /\
    Scheduler.failCalls st' = Scheduler.failCalls st + Z.of_nat (List.length fails) /\
    Scheduler.currBlockNumber st'
    = (if Nat.eqb (List.length fails) 0 then curr + width else curr) /\
    sleeps evs = [] /\
    loggedFailures evs = fails.
Proof.
  intros curr width fails Hd Hall.
  rewrite (earlier_iteration_dispatching idx st Hd).
  destruct (earlier_runHooks_frame (hooksWhilePolling env) st) as (Hc & Hf).
  set (polled := Earlier.runHooks (hooksWhilePolling env) st) in *.
  unfold Earlier.dispatch, Js.all. rewrite Hc. fold curr. fold (batchWidth cfg curr latest).
  fold width.
  assert (Hnone : Js.firstRejection (Earlier.batchPromises idx cfg env curr width)
                  = None).
  { apply JsFacts.firstRejection_None. intros p Hp. unfold Earlier.batchPromises in Hp.
    apply in_map_iff in Hp. destruct Hp as (b & <- & Hb). now apply Hall. }
  rewrite Hnone. simpl Js.outcome. simpl Js.settledAt.
  set (results := Js.values (Earlier.batchPromises idx cfg env curr width)).
  assert (Hres : List.concat results = fails)
    by apply concat_values_returnedFailures.
  destruct (earlier_runHooks_frame (hooksWhileWaiting env) polled) as (Hc2 & Hf2).
  destruct (earlier_countResults_spec results
              (Earlier.runHooks (hooksWhileWaiting env) polled) false)
    as (Hcc & Hcf & Hcb).
  destruct (Earlier.countResults results _) as [st1 isFailed].
  simpl in Hcc, Hcf, Hcb. rewrite Hres in Hcf, Hcb.
  subst isFailed. destruct (Nat.eqb (List.length fails) 0); simpl.
  - do 2 eexists. split; [reflexivity|]. simpl.
    split; [lia|]. split; [lia|]. rewrite Hres. split; now pick_events.
  - do 2 eexists. split; [reflexivity|].
    split; [lia|]. split; [lia|]. rewrite Hres. split; now pick_events.
Qed.

(** In the earlier revision a batch that returns whole advances the
    pointer only when no receipt failed.  When receipts keep failing, the
    loop dispatches the same blocks again at once and counts their
    failures again at every attempt: after n attempts with m failures each
    the pointer has not moved and the failed-call count has grown by n*m. *)
Theorem earlier_failed_receipts_are_recounted idx cfg envs n k st m :
  let curr := Scheduler.currBlockNumber st in
  (forall j, (j < n)%nat ->
     exists latest,
       dispatching cfg (envs (k + j)%nat) curr latest /\
       allReturn idx cfg (envs (k + j)%nat)
         (Earlier.batchBlocks curr (batchWidth cfg curr latest)) /\
       List.length
         (returnedFailures idx cfg (envs (k + j)%nat)
            (Earlier.batchBlocks curr (batchWidth cfg curr latest))) = S m) ->
  exists st' evs,
    Earlier.loop n idx cfg envs k st = (Continue, st', evs) /\
    Scheduler.currBlockNumber st' = curr /\
    Scheduler.failCalls st'
    = Scheduler.failCalls st + Z.of_nat n * Z.of_nat (S m) /\
    List.length (loggedFailures evs) = (n * S m)%nat /\
    sleeps evs = [].
Proof.
  intros curr. subst curr. revert k st. induction n as [|n IH]; intros k st H.
  - exists st, []. repeat split. simpl. lia.
  - destruct (H 0%nat ltac:(lia)) as (latest & Hd & Hall & Hlen).
    rewrite Nat.add_0_r in Hd, Hall, Hlen.
    destruct (@earlier_iteration_allReturn idx cfg (envs k) st latest Hd Hall)
      as (st1 & evs1 & Hit & Hf & Hc & Hs & Hl).
    rewrite Hlen in Hf, Hc. simpl in Hc.
    rewrite earlier_loop_S, Hit.
    destruct (IH (S k) st1) as (st' & evs & -> & Hc' & Hf' & Hl' & Hs').
    { intros j Hj. rewrite Hc.
      replace (S k + j)%nat with (k + S j)%nat by lia. apply H. lia. }
    do 2 eexists. split; [reflexivity|].
    split; [congruence|]. split; [lia|].
    unfold loggedFailures, sleeps in *. rewrite !pick_app.
    rewrite Hs, Hs', length_app, Hl, Hl', Hlen. split; [lia|reflexivity].
Qed.

(** Three attempts at block 10 over [receiptsTimeOutIteration]: nine
    failed calls, the pointer still at 10. *)
Lemma earlier_failed_receipts_are_recounted_witness :
  exists st' evs,
    Earlier.loop 3 0 (config (Some 10) (Some 10) None 1)
      (fun _ => receiptsTimeOutIteration) 0 (Scheduler.init 10)
    = (Continue, st', evs) /\
    Scheduler.currBlockNumber st' = 10 /\
    Scheduler.failCalls st' = 0 + 3 * 3 /\
    List.length (loggedFailures evs) = 9%nat /\
    sleeps evs = [].
Proof.
  apply (@earlier_failed_receipts_are_recounted 0
           (config (Some 10) (Some 10) None 1)
           (fun _ => receiptsTimeOutIteration) 3 0 (Scheduler.init 10) 2).
  intros j _. exists 11. split; [|split].
  - split; [split; [intros H; discriminate H|exact I]|].
    split; reflexivity.
  - intros b _. reflexivity.
  - reflexivity.
Defined.

(** ** The latency total *)

(** A property of the scheduler's variables that the hooks satisfying [Q],
    the counting of a failure and the move of the pointer all keep is kept
    by the whole loop. *)
Section Preserved.

Variable Q : HookCall -> Prop.
Variable P : Scheduler.t -> Prop.
Hypothesis P_hook : forall h st, Q h -> P st -> P (runHook h st).
Hypothesis P_count : forall f st, P st -> P (countFailure f st).
Hypothesis P_advance : forall n st, P st -> P (Scheduler.addCurrBlockNumber n st).

Lemma runHooks_preserves hs st : Forall Q hs -> P st -> P (runHooks hs st).
Proof.
  unfold runHooks. intros Hhs. revert st.
  induction Hhs as [|h hs Hh _ IH]; simpl; intros st Hst; [exact Hst|].
  apply IH, P_hook; assumption.
Qed.

Lemma countBlock_preserves fails st b :
  P st -> P (fst (countBlock fails (st, b))).
Proof.
  revert st b. induction fails as [|f fails IH]; simpl; intros st b Hst.
  - exact Hst.
  - apply IH, P_count, Hst.
Qed.

Lemma countResults_preserves results st b :
  P st -> P (fst (countResults results (st, b))).
Proof.
  revert st b. induction results as [|fails results IH]; simpl; intros st b Hst.
  - exact Hst.
  - pose proof (countBlock_preserves fails b Hst) as H.
    destruct (countBlock fails (st, b)) as [st' b']. now apply IH.
Qed.

Lemma dispatch_preserves idx cfg env st latest :
  Forall Q (hooksWhileWaiting env) -> P st ->
  P (snd (fst (dispatch idx cfg env st latest))).
Proof.
  intros Hhs Hst. unfold dispatch.
  pose proof (runHooks_preserves Hhs Hst) as Hw.
  destruct (Js.outcome (Js.all _ _)) as [results|err]; [|exact Hw].
  pose proof (countResults_preserves results false Hw) as Hc.
  destruct (countResults results _) as [st' isFailed]. simpl.
  now apply P_advance.
Qed.

Lemma iteration_preserves idx cfg env st :
  hooksAll Q env -> P st -> P (snd (fst (iteration idx cfg env st))).
Proof.
  intros [Hp Hw] Hst.
  pose proof (runHooks_preserves Hp Hst) as Hpolled.
  destruct (iteration_cases idx cfg env st)
    as [H|[H|[(err & _ & _ & H)|[(latest & _ & _ & _ & H)|(latest & _ & H)]]]];
    rewrite H; simpl; auto.
  - now apply runHooks_preserves.
  - now apply dispatch_preserves.
Qed.

Lemma loop_preserves fuel idx cfg envs k st :
  (forall j, hooksAll Q (envs j)) -> P st ->
  P (snd (fst (loop fuel idx cfg envs k st))).
Proof.
  intros Hall. revert k st. induction fuel as [|fuel IH]; intros k st Hst.
  - exact Hst.
  - rewrite loop_S.
    pose proof (@iteration_preserves idx cfg (envs k) st (Hall k) Hst) as Hit.
    destruct (iteration idx cfg (envs k) st) as [[[| |code] st'] evs];
      simpl in *; try exact Hit.
    specialize (IH (S k) st' Hit).
    now destruct (loop fuel idx cfg envs (S k) st') as [[f s] e].
Qed.

End Preserved.

(** The state a returned result was built from. *)
Lemma startScheduler_returned fuel idx cfg env r evs :
  startScheduler fuel idx cfg env = Some (Returned r, evs) ->
  exists m hs st',
    (hs = [] \/ hs = hooksAtStart env) /\
    loop fuel idx cfg (iterEnv env) 0 (runHooks hs (Scheduler.init m))
    = (Break, st', evs) /\
    r = result idx cfg m (returnNow env) st'.
Proof.
  unfold startScheduler. destruct (TestConfig.startBlockNumber cfg) as [m|].
  - intros H. exists m, [], (snd (fst (loop fuel idx cfg (iterEnv env) 0
                                         (Scheduler.init m)))).
    simpl runHooks.
    destruct (loop fuel idx cfg (iterEnv env) 0 (Scheduler.init m))
      as [[[| |code] st'] evs']; try discriminate.
    injection H as <- <-. auto.
  - destruct (Js.outcome (startPoll env)) as [m|err]; [|discriminate].
    intros H. exists m, (hooksAtStart env),
      (snd (fst (loop fuel idx cfg (iterEnv env) 0
                   (runHooks (hooksAtStart env) (Scheduler.init m))))).
    destruct (loop fuel idx cfg (iterEnv env) 0 _)
      as [[[| |code] st'] evs']; try discriminate.
    injection H as <- <-. auto.
Qed.

(** A result that counts no call carries no latency either, and the
    summary then prints NaN for the average call time: the quotient 0/0. *)
Theorem no_call_gives_nan_average fuel idx cfg env r evs startTimeMs :
  startScheduler fuel idx cfg env = Some (Returned r, evs) ->
  TestResult.calls r = 0 ->
  TestResult.totalCallMs r = 0 /\
  PrimFloat.is_nan (avgCallTimeMs (summary startTimeMs r)) = true /\
  PrimFloat.is_nan (avgCallTimeSec (summary startTimeMs r)) = true.
Proof.
  intros Hrun Hcalls.
  destruct (startScheduler_returned _ _ _ _ Hrun) as (m & hs & st' & _ & Hloop & ->).
  assert (Hinv : latencyNeedsCalls st').
  { change st' with (snd (fst (Break, st', evs))). rewrite <- Hloop.
    assert (Hhook : forall h st, True -> latencyNeedsCalls st ->
                      latencyNeedsCalls (runHook h st)).
    { intros [|s now|sc at_] st _ [H0 H1]; unfold latencyNeedsCalls; simpl;
        split; auto; lia. }
    apply (@loop_preserves (fun _ => True) latencyNeedsCalls).
    - exact Hhook.
    - intros f st [H0 H1]. unfold latencyNeedsCalls, countFailure.
      destruct (Js.includes _ _); simpl; auto.
    - intros n st H. exact H.
    - intros j. split; apply Forall_forall; auto.
    - apply (@runHooks_preserves (fun _ => True) latencyNeedsCalls Hhook).
      + apply Forall_forall. auto.
      + split; simpl; auto. lia. }
  simpl in Hcalls. destruct Hinv as [_ Hms]. specialize (Hms Hcalls).
  unfold summary. simpl. rewrite Hcalls, Hms. repeat split.
Qed.

(** A run stopped by its time bound before any poll: no call, no latency,
    NaN as the average. *)
Lemma no_call_gives_nan_average_witness :
  exists r evs,
    startScheduler 1 0 (config (Some 10) None (Some 0) 3) sixBlocks
    = Some (Returned r, evs) /\
    TestResult.calls r = 0 /\
    PrimFloat.is_nan (avgCallTimeMs (summary 0 r)) = true.
Proof.
  do 2 eexists. split; [vm_compute; reflexivity|]. split; [reflexivity|].
  eapply (fun H1 H2 => proj1 (proj2
            (@no_call_gives_nan_average 1 0 (config (Some 10) None (Some 0) 3)
               sixBlocks _ _ 0 H1 H2))).
  - vm_compute. reflexivity.
  - reflexivity.
Defined.

(** When no response is stamped before its request (the clock does not go
    back between [preflightFunc] and [processFunc]), the latency total of
    every result is not negative. *)
Theorem latency_total_is_not_negative fuel idx cfg env r evs :
  Forall clockForward (hooksAtStart env) ->
  (forall k, hooksAll clockForward (iterEnv env k)) ->
  startScheduler fuel idx cfg env = Some (Returned r, evs) ->
  0 <= TestResult.totalCallMs r.
Proof.
  intros Hstart Hiter Hrun.
  destruct (startScheduler_returned _ _ _ _ Hrun)
    as (m & hs & st' & Hhs & Hloop & ->).
  simpl. change st' with (snd (fst (Break, st', evs))). rewrite <- Hloop.
  assert (Hhook : forall h st, clockForward h -> 0 <= Scheduler.totalCallMs st ->
                    0 <= Scheduler.totalCallMs (runHook h st)).
  { intros [|s now|sc at_] st Hh H; simpl in *; lia. }
  apply (@loop_preserves clockForward (fun st => 0 <= Scheduler.totalCallMs st)).
  - exact Hhook.
  - intros f st H. unfold countFailure. now destruct (Js.includes _ _).
  - intros n st H. exact H.
  - exact Hiter.
  - apply (@runHooks_preserves clockForward
             (fun st => 0 <= Scheduler.totalCallMs st) Hhook).
    + destruct Hhs as [-> | ->]; [constructor|exact Hstart].
    + simpl. lia.
Qed.

(** The run over [sixBlocks]: two polls, each answered after 5 ms. *)
Lemma latency_total_is_not_negative_witness :
  exists r evs,
    startScheduler 3 7 (config (Some 100) (Some 105) None 3) sixBlocks
    = Some (Returned r, evs) /\
    0 <= TestResult.totalCallMs r.
Proof.
  do 2 eexists. split; [vm_compute; reflexivity|].
  eapply (@latency_total_is_not_negative 3 7 (config (Some 100) (Some 105) None 3)
            sixBlocks).
  - constructor.
  - intros k. split; [|constructor].
    repeat constructor. simpl. intros H. discriminate H.
  - vm_compute. reflexivity.
Defined.

(** ** When a run returns *)

Lemma iteration_unbounded idx cfg env st :
  TestConfig.finishBlockNumber cfg = None ->
  TestConfig.targetRunningTimeMs cfg = None ->
  fst (fst (iteration idx cfg env st)) = Continue.
Proof.
  intros Hf Ht. unfold iteration. rewrite Hf, Ht.
  destruct (Js.outcome (getBlockNumber env)) as [latest|err]; [|reflexivity].
  simpl. destruct (_ >=? latest); [reflexivity|apply dispatch_flow].
Qed.

Lemma loop_unbounded fuel idx cfg envs k st :
  TestConfig.finishBlockNumber cfg = None ->
  TestConfig.targetRunningTimeMs cfg = None ->
  fst (fst (loop fuel idx cfg envs k st)) = Continue.
Proof.
  intros Hf Ht. revert k st. induction fuel as [|fuel IH]; intros k st.
  - reflexivity.
  - rewrite loop_S.
    pose proof (@iteration_unbounded idx cfg (envs k) st Hf Ht) as Hit.
    destruct (iteration idx cfg (envs k) st) as [[flow st'] evs].
    simpl in Hit. subst flow. specialize (IH (S k) st').
    now destruct (loop fuel idx cfg envs (S k) st') as [[f s] e].
Qed.

(** A run configured with neither a finish block nor a target running time
    never returns a result, however many iterations it is given. *)
Theorem run_without_bound_never_returns fuel idx cfg env r evs :
  TestConfig.finishBlockNumber cfg = None ->
  TestConfig.targetRunningTimeMs cfg = None ->
  startScheduler fuel idx cfg env <> Some (Returned r, evs).
Proof.
  intros Hf Ht. unfold startScheduler.
  assert (Hloop : forall m st,
            match loop fuel idx cfg (iterEnv env) 0 st with
            | (Continue, _, _) => None
            | (Exit code', _, evs') => Some (Exited code', evs')
            | (Break, st', evs') =>
                Some (Returned (result idx cfg m (returnNow env) st'), evs')
            end <> Some (Returned r, evs)).
  { intros m st. pose proof (@loop_unbounded fuel idx cfg (iterEnv env) 0 st Hf Ht) as H.
    destruct (loop fuel idx cfg (iterEnv env) 0 st) as [[flow st'] evs'].
    simpl in H. subst flow. discriminate. }
  destruct (TestConfig.startBlockNumber cfg) as [m|]; [apply Hloop|].
  destruct (Js.outcome (startPoll env)) as [m|err]; [apply Hloop|discriminate].
Qed.

(** The run over [sixBlocks] without its finish block has not returned a
    result after a thousand iterations. *)
Lemma run_without_bound_never_returns_witness :
  TestConfig.finishBlockNumber (config (Some 100) None None 3) = None /\
  TestConfig.targetRunningTimeMs (config (Some 100) None None 3) = None /\
  startScheduler 1000 7 (config (Some 100) None None 3) sixBlocks
  <> Some (Returned (result 7 (config (Some 100) None None 3) 100 60
                       (Scheduler.init 3100)), []).
Proof.
  exact (conj eq_refl (conj eq_refl
           (@run_without_bound_never_returns 1000 7
              (config (Some 100) None None 3) sixBlocks _ _ eq_refl eq_refl))).
Defined.



(* ================================================================== *)
(** * Properties of the Solana scheduler *)

(** ** getBlocksBulk *)

Lemma fetchSlot_counts env slot stats :
  Solana.totalGetBlockCalls (Solana.fetchSlot env slot stats)
  = Solana.totalGetBlockCalls stats + 1 /\
  Solana.errors (Solana.fetchSlot env slot stats)
  = Solana.errors stats + (if slotFails env slot then 1 else 0) /\
  Solana.startBlock (Solana.fetchSlot env slot stats) = Solana.startBlock stats /\
  Solana.endBlock (Solana.fetchSlot env slot stats) = Solana.endBlock stats /\
  Solana.startTime (Solana.fetchSlot env slot stats) = Solana.startTime stats.
Proof.
  unfold Solana.fetchSlot, slotFails.
  destruct (Js.outcome (Solana.getBlockWithAxios env slot)); simpl;
    repeat split; lia.
Qed.

Lemma fetchSlots_counts env slots stats :
  let stats' := fold_left (fun stats slot => Solana.fetchSlot env slot stats)
                  slots stats in
  Solana.totalGetBlockCalls stats'
  = Solana.totalGetBlockCalls stats + Z.of_nat (List.length slots) /\
  Solana.errors stats'
  = Solana.errors stats + Z.of_nat (List.length (filter (slotFails env) slots)) /\
  Solana.startBlock stats' = Solana.startBlock stats /\
  Solana.endBlock stats' = Solana.endBlock stats /\
  Solana.startTime stats' = Solana.startTime stats.
Proof.
  cbv zeta. revert stats. induction slots as [|slot slots IH]; intros stats.
  - simpl. repeat split; lia.
  - simpl fold_left. destruct (IH (Solana.fetchSlot env slot stats))
      as (-> & -> & -> & -> & ->).
    destruct (fetchSlot_counts env slot stats) as (-> & -> & -> & -> & ->).
    simpl filter. simpl List.length.
    destruct (slotFails env slot); simpl List.length; repeat split; lia.
Qed.

(** [getBlocksBulk] never rejects, whatever becomes of the requests: it
    fulfils once every request has settled, having counted one call per
    slot and one error per rejected request, so the error count never
    grows faster than the call count. *)
Theorem getBlocksBulk_counts_every_slot t0 env slots stats :
  let joined := fst (Solana.getBlocksBulk t0 env slots stats) in
  let stats' := snd (Solana.getBlocksBulk t0 env slots stats) in
  Js.isRejected (Js.outcome joined) = false /\
  (forall slot, In slot slots ->
     (Js.settledAt (Solana.getBlockWithAxios env slot) <= Js.settledAt joined)%nat) /\
  Solana.totalGetBlockCalls stats'
  = Solana.totalGetBlockCalls stats + Z.of_nat (List.length slots) /\
  Solana.errors stats'
  = Solana.errors stats + Z.of_nat (List.length (filter (slotFails env) slots)) /\
  Solana.errors stats' - Solana.errors stats
  <= Solana.totalGetBlockCalls stats' - Solana.totalGetBlockCalls stats.
Proof.
  cbv zeta. unfold Solana.getBlocksBulk. simpl fst. simpl snd.
  assert (Hnone : Js.firstRejection (map (Solana.slotTask env) slots) = None).
  { apply JsFacts.firstRejection_None. intros p Hp.
    apply in_map_iff in Hp. now destruct Hp as (slot & <- & _). }
  unfold Js.all. rewrite Hnone. simpl.
  destruct (fetchSlots_counts env slots stats) as (Hc & He & _).
  cbv zeta in Hc, He. rewrite Hc, He.
  split; [reflexivity|]. split; [|split; [reflexivity|split; [reflexivity|]]].
  - intros slot Hin.
    apply (@JsFacts.lastSettled_upper _ t0 (map (Solana.slotTask env) slots)
             (Solana.slotTask env slot)).
    now apply in_map.
  - pose proof (filter_length_le (slotFails env) slots). lia.
Qed.

(** ** The loop over the slots *)

Lemma slotsToFetch_consecutive c e :
  Solana.slotsToFetch c (Some e) = consecutive c (Z.to_nat (e - c + 1)).
Proof.
  unfold Solana.slotsToFetch.
  rewrite (map_seq_consecutive _ c); [f_equal; simpl; lia|reflexivity].
Qed.





Lemma follow_stuck fuel b latest envs k c stats :
  b <= 0 -> c <= latest ->
  Solana.follow fuel (Some b) latest envs k (Some c) stats = None.
Proof.
  intros Hb. revert k c stats. induction fuel as [|fuel IH]; intros k c stats Hc.
  - reflexivity.
  - cbn [Solana.follow Solana.leq Solana.add Solana.sub Solana.min].
    replace (c <=? latest) with true by (symmetry; now apply Z.leb_le).
    unfold Solana.getBlocksBulk.
    replace (Z.min (c + b - 1) latest + 1) with (c + b) by lia.
    rewrite IH; [reflexivity|lia].
Qed.

(** With a bulk size of 0 or less the run never ends once there is a slot
    to fetch: every bulk is empty and the current slot does not advance. *)
Theorem solana_run_never_ends_without_bulk fuel env b latest start :
  Solana.BULK_SIZE env = Some b ->
  b <= 0 ->
  Js.outcome (Solana.getLatestSlot env) = Js.Fulfilled latest ->
  Solana.getBlockFromMinutesAgo latest (Solana.MINUTES_AGO env) = Some start ->
  start <= latest ->
  Solana.runSolanaScheduler fuel env = None /\
  forall c,
    Solana.slotsToFetch c
      (Solana.min (Solana.sub (Solana.add (Some c) (Some b)) (Some 1)) (Some latest))
    = [].
Proof.
  intros Hbulk Hb Hlatest Hstart Hle. split.
  - unfold Solana.runSolanaScheduler. rewrite Hlatest, Hstart, Hbulk.
    now rewrite follow_stuck.
  - intros c. cbn [Solana.min Solana.sub Solana.add].
    rewrite slotsToFetch_consecutive.
    replace (Z.to_nat (Z.min (c + b - 1) latest - c + 1)) with 0%nat by lia.
    reflexivity.
Qed.

(** The sample run with bulks of 0 is still running after 1000 bulks. *)
Lemma solana_run_never_ends_without_bulk_witness :
  Solana.runSolanaScheduler 1000 (solanaRun (Some 0) (Some 1)) = None.
Proof.
  refine (proj1 (@solana_run_never_ends_without_bulk 1000
                   (solanaRun (Some 0) (Some 1)) 0 100 0 eq_refl _ eq_refl eq_refl _));
    intros H; discriminate H.
Defined.

(** When BULK_SIZE or MINUTES_AGO does not parse to a number, the run
    still prints its results, having asked for no slot at all. *)
Theorem solana_run_with_unparsable_setting fuel env latest :
  Solana.BULK_SIZE env = None \/ Solana.MINUTES_AGO env = None ->
  Js.outcome (Solana.getLatestSlot env) = Js.Fulfilled latest ->
  (2 <= fuel)%nat ->
  exists stats bulks,
    Solana.runSolanaScheduler fuel env = Some (Solana.Printed stats bulks) /\
    List.concat bulks = [] /\
    Solana.totalGetBlockCalls stats = 0 /\
    Solana.errors stats = 0.
Proof.
  intros Hnan Hlatest Hfuel. destruct fuel as [|[|fuel]]; try lia.
  unfold Solana.runSolanaScheduler. rewrite Hlatest.
  destruct (Solana.getBlockFromMinutesAgo latest (Solana.MINUTES_AGO env))
    as [start|] eqn:Hstart.
  - destruct Hnan as [Hbulk|Hmin].
    + rewrite Hbulk.
      cbn [Solana.follow Solana.leq Solana.add Solana.sub Solana.min
           Solana.slotsToFetch Solana.getBlocksBulk fold_left].
      destruct (start <=? latest); do 2 eexists; split; try reflexivity;
        repeat split.
    + rewrite Hmin in Hstart. discriminate.
  - cbn [Solana.follow Solana.leq]. do 2 eexists. split; [reflexivity|].
    repeat split.
Qed.

(** The sample run with an unparsable BULK_SIZE. *)
Lemma solana_run_with_unparsable_setting_witness :
  exists stats bulks,
    Solana.runSolanaScheduler 2 (solanaRun None (Some 1))
    = Some (Solana.Printed stats bulks) /\
    List.concat bulks = [] /\
    Solana.totalGetBlockCalls stats = 0 /\
    Solana.errors stats = 0.
Proof.
  apply (@solana_run_with_unparsable_setting 2 (solanaRun None (Some 1)) 100).
  - left. reflexivity.
  - reflexivity.
  - apply le_n.
Defined.
